(** * The Demon wallet adapter: request routing and connection lifecycle

    A shallow embedding of [src/adapter/baseInjectedProvider.ts] (the
    JSON-RPC middleware chain) and [src/adapter/demonAdapter.ts] (the
    adapter facade and its four-valued status), followed by the properties
    established about them. *)

From stdpp Require Import base option list strings.

Local Open Scope string_scope.

(** ** Errors

    Every error the two files construct is either a [WalletLoginError]
    (a [Web3AuthError]) built by one of the factory functions
    [connectionError], [disconnectionError], [notConnectedError],
    [unsupportedOperation], or a plain JavaScript [Error].  The
    specification's taxonomy additionally names a precondition error and an
    unsupported-chain error; they are listed here so that statements can
    speak about them. *)

Inductive ErrorClass : Type :=
  | PreconditionError
  | UnsupportedChainError
  | ConnectionError
  | NotConnectedError
  | DisconnectionError
  | UnsupportedOperationError
  | GenericError.

Global Instance ErrorClass_eq_dec : EqDecision ErrorClass.
Proof. solve_decision. Defined.

Record JsError : Type := mkError {
  err_class : ErrorClass;
  err_message : string
}.

Global Instance JsError_eq_dec : EqDecision JsError.
Proof. solve_decision. Defined.

(** [new Error(msg)] *)
Definition Error (msg : string) : JsError := mkError GenericError msg.

(** [error instanceof Web3AuthError]: everything but a plain [Error]. *)
Definition instanceof_Web3AuthError (e : JsError) : bool :=
  match err_class e with
  | GenericError => false
  | _ => true
  end.

Module WalletLoginError.
Definition connectionError (msg : string) : JsError :=
  mkError ConnectionError msg.
Definition disconnectionError (msg : string) : JsError :=
  mkError DisconnectionError msg.
Definition notConnectedError (msg : string) : JsError :=
  mkError NotConnectedError msg.
Definition unsupportedOperation (msg : string) : JsError :=
  mkError UnsupportedOperationError msg.
End WalletLoginError.

(** ** Chain configuration *)

Record CustomChainConfig : Type := mkChainConfig {
  chainNamespace : string;
  chainId : string;
  rpcTarget : string
}.

Global Instance CustomChainConfig_eq_dec : EqDecision CustomChainConfig.
Proof. solve_decision. Defined.

(** The object a provider stores as [config.chainConfig].  The constructor
    of [BaseInjectedProvider] builds it as
    [{ ...config.chainConfig, chainNamespace: CHAIN_NAMESPACES.SOLANA }]:
    spreading an absent configuration leaves every other field undefined. *)
Record ProviderChainConfig : Type := mkProviderChainConfig {
  pc_chainNamespace : string;
  pc_chainId : option string;
  pc_rpcTarget : option string
}.

Global Instance ProviderChainConfig_eq_dec : EqDecision ProviderChainConfig.
Proof. solve_decision. Defined.

Definition SOLANA : string := "solana".

Definition spread_chainConfig (c : option CustomChainConfig)
  : ProviderChainConfig :=
  match c with
  | Some c =>
      mkProviderChainConfig SOLANA (Some (chainId c)) (Some (rpcTarget c))
  | None => mkProviderChainConfig SOLANA None None
  end.

(** ** Requests and responses *)

Inductive JValue : Type :=
  | JString (s : string)
  | JStrings (l : list string)
  | JBytes (b : list nat)
  | JConfig (c : ProviderChainConfig).

Record JRPCRequest : Type := mkRequest {
  method : string;
  params : option JValue
}.

Record JRPCResponse : Type := mkResponse {
  result : option JValue
}.

(** ** The method router *)

Module Router.
Section Router.

(** Handlers are black-box asynchronous calls into the wallet.  Whatever
    they touch is the world [W]; a handler either returns a value or
    throws. *)
Context {W : Type}.

Definition Handler : Type := JRPCRequest -> W -> (JsError + JValue) * W.

(** What a middleware tells the engine: go on with the next middleware,
    the request is answered, or the request failed. *)
Inductive Signal : Type :=
  | Next
  | End
  | Fail (e : JsError).

Definition JRPCMiddleware : Type :=
  JRPCRequest -> JRPCResponse -> W -> Signal * JRPCResponse * W.

(** The three ways the body of an [async (request, response, next)]
    function in this file finishes. *)
Inductive AsyncOutcome : Type :=
  | ReturnedNext            (* [return next()] *)
  | ReturnedUndefined       (* [return undefined] *)
  | Thrown (e : JsError).

Definition AsyncBody : Type :=
  JRPCRequest -> JRPCResponse -> W -> AsyncOutcome * JRPCResponse * W.

(** [createAsyncMiddleware] of the JSON-RPC engine package, an external
    collaborator: a body that returns without calling [next] ends the
    request, one that throws fails it. *)
Definition createAsyncMiddleware (body : AsyncBody) : JRPCMiddleware :=
  fun req res w =>
    match body req res w with
    | (ReturnedNext, res', w') => (Next, res', w')
    | (ReturnedUndefined, res', w') => (End, res', w')
    | (Thrown e, res', w') => (Fail e, res', w')
    end.

(** [mergeMiddleware] of the same package: the middlewares run in the
    order of the array; the first one that ends or fails the request
    stops the chain, and when none does the merged middleware itself
    calls [next]. *)
Fixpoint mergeMiddleware (stack : list JRPCMiddleware) : JRPCMiddleware :=
  fun req res w =>
    match stack with
    | [] => (Next, res, w)
    | mw :: rest =>
        match mw req res w with
        | (Next, res', w') => mergeMiddleware rest req res' w'
        | stop => stop
        end
    end.

(** *** The config responder *)

(** The chain id is whatever the configuration object held under
    [chainId], possibly nothing. *)
Definition createChainIdMiddleware (chainId : option string)
  : JRPCMiddleware :=
  fun req res w =>
    if decide (method req = "solana_chainId")
    then (End, mkResponse (JString <$> chainId), w)
    else (Next, res, w).

Definition createProviderConfigMiddleware (providerConfig : ProviderChainConfig)
  : JRPCMiddleware :=
  fun req res w =>
    if decide (method req = "solana_provider_config")
    then (End, mkResponse (Some (JConfig providerConfig)), w)
    else (Next, res, w).

Definition createConfigMiddleware (providerConfig : ProviderChainConfig)
  : JRPCMiddleware :=
  let chainId := pc_chainId providerConfig in
  mergeMiddleware
    [createChainIdMiddleware chainId;
     createProviderConfigMiddleware providerConfig].

(** *** The business-method bindings *)

Definition createGetAccountsMiddleware (getAccounts : option Handler)
  : JRPCMiddleware :=
  createAsyncMiddleware (fun request response w =>
    if decide (method request <> "getAccounts")
    then (ReturnedNext, response, w)
    else
      match getAccounts with
      | None =>
          (Thrown (Error "WalletMiddleware - opts.getAccounts not provided"),
           response, w)
      | Some getAccounts =>
          match getAccounts request w with
          | (inl e, w') => (Thrown e, response, w')
          | (inr accounts, w') =>
              (ReturnedUndefined, mkResponse (Some accounts), w')
          end
      end).

Definition createGenericJRPCMiddleware
    (targetMethod : string) (handler : option Handler) : JRPCMiddleware :=
  createAsyncMiddleware (fun request response w =>
    if decide (method request <> targetMethod)
    then (ReturnedNext, response, w)
    else
      match handler with
      | None =>
          (Thrown (Error ("WalletMiddleware - " +:+ targetMethod
                          +:+ " not provided")),
           response, w)
      | Some handler =>
          match handler request w with
          | (inl e, w') => (Thrown e, response, w')
          | (inr result, w') =>
              (ReturnedUndefined, mkResponse (Some result), w')
          end
      end).

Definition createRequestAccountsMiddleware (requestAccounts : option Handler)
  : JRPCMiddleware :=
  createAsyncMiddleware (fun request response w =>
    if decide (method request <> "requestAccounts")
    then (ReturnedNext, response, w)
    else
      match requestAccounts with
      | None =>
          (Thrown
             (Error "WalletMiddleware - opts.requestAccounts not provided"),
           response, w)
      | Some requestAccounts =>
          match requestAccounts request w with
          | (inl e, w') => (Thrown e, response, w')
          | (inr accounts, w') =>
              (ReturnedUndefined, mkResponse (Some accounts), w')
          end
      end).

(** [IProviderHandlers]: any of the handlers may be missing at run
    time, which is what the [!handler] tests guard against. *)
Record IProviderHandlers : Type := mkHandlers {
  getAccounts : option Handler;
  requestAccounts : option Handler;
  signTransaction : option Handler;
  signAndSendTransaction : option Handler;
  signAllTransactions : option Handler;
  signMessage : option Handler;
  getPrivateKey : option Handler;
  getSecretKey : option Handler
}.

Definition createSolanaMiddleware (providerHandlers : IProviderHandlers)
  : JRPCMiddleware :=
  mergeMiddleware
    [createRequestAccountsMiddleware (requestAccounts providerHandlers);
     createGetAccountsMiddleware (getAccounts providerHandlers);
     createGenericJRPCMiddleware "signTransaction"
       (signTransaction providerHandlers);
     createGenericJRPCMiddleware "signAndSendTransaction"
       (signAndSendTransaction providerHandlers);
     createGenericJRPCMiddleware "signAllTransactions"
       (signAllTransactions providerHandlers);
     createGenericJRPCMiddleware "signMessage" (signMessage providerHandlers);
     createGenericJRPCMiddleware "solanaPrivateKey"
       (getPrivateKey providerHandlers);
     createGenericJRPCMiddleware "private_key" (getPrivateKey providerHandlers);
     createGenericJRPCMiddleware "solanaSecretKey"
       (getSecretKey providerHandlers)].

(** *** Vocabulary of the statements *)

(** A binding is a method name with its handler; the file builds one in
    three ways. *)
Inductive Binding : Type :=
  | RequestAccounts (requestAccounts : option Handler)
  | GetAccounts (getAccounts : option Handler)
  | Generic (targetMethod : string) (handler : option Handler).

Definition bindingName (b : Binding) : string :=
  match b with
  | RequestAccounts _ => "requestAccounts"
  | GetAccounts _ => "getAccounts"
  | Generic targetMethod _ => targetMethod
  end.

Definition bindingHandler (b : Binding) : option Handler :=
  match b with
  | RequestAccounts h | GetAccounts h | Generic _ h => h
  end.

Definition bindingMiddleware (b : Binding) : JRPCMiddleware :=
  match b with
  | RequestAccounts h => createRequestAccountsMiddleware h
  | GetAccounts h => createGetAccountsMiddleware h
  | Generic targetMethod h => createGenericJRPCMiddleware targetMethod h
  end.

(** Dispatch over an ordered list of bindings. *)
Definition dispatch (bs : list Binding) : JRPCMiddleware :=
  mergeMiddleware (map bindingMiddleware bs).

(** The bindings of [createSolanaMiddleware], in the order of its array
    literal. *)
Definition solanaBindings (ph : IProviderHandlers) : list Binding :=
  [RequestAccounts (requestAccounts ph);
   GetAccounts (getAccounts ph);
   Generic "signTransaction" (signTransaction ph);
   Generic "signAndSendTransaction" (signAndSendTransaction ph);
   Generic "signAllTransactions" (signAllTransactions ph);
   Generic "signMessage" (signMessage ph);
   Generic "solanaPrivateKey" (getPrivateKey ph);
   Generic "private_key" (getPrivateKey ph);
   Generic "solanaSecretKey" (getSecretKey ph)].

(** The first binding, in declared order, whose name is [m]. *)
Fixpoint firstBinding (bs : list Binding) (m : string) : option Binding :=
  match bs with
  | [] => None
  | b :: rest =>
      if decide (m = bindingName b) then Some b else firstBinding rest m
  end.

(** What awaiting [h] with the request and storing its return value in
    [response.result] amounts to. *)
Definition awaitInto (h : Handler) : JRPCMiddleware :=
  fun req res w =>
    match h req w with
    | (inl e, w') => (Fail e, res, w')
    | (inr v, w') => (End, mkResponse (Some v), w')
    end.

End Router.
End Router.

Arguments Router.Handler : clear implicits.
Arguments Router.JRPCMiddleware : clear implicits.
Arguments Router.IProviderHandlers : clear implicits.
Arguments Router.Binding : clear implicits.
Arguments Router.Signal : clear implicits.

(** The method names claimed by the two middlewares that [setupProvider]
    always installs. *)
Definition boundMethods : list string :=
  ["requestAccounts"; "getAccounts"; "signTransaction";
   "signAndSendTransaction"; "signAllTransactions"; "signMessage";
   "solanaPrivateKey"; "private_key"; "solanaSecretKey";
   "solana_chainId"; "solana_provider_config"].

(** An error that says the handler of method [m] was not provided. *)
Definition handlerNotProvided (m : string) (e : JsError) : Prop :=
  err_class e = GenericError /\
  exists prefix, err_message e = prefix +:+ m +:+ " not provided".

(** ** The adapter *)

Inductive ADAPTER_STATUS : Type :=
  | NOT_READY
  | READY
  | CONNECTING
  | CONNECTED.

Global Instance ADAPTER_STATUS_eq_dec : EqDecision ADAPTER_STATUS.
Proof. solve_decision. Defined.

(** [Cluster] of the Solana library: the network a wallet is created for. *)
Inductive Cluster : Type :=
  | mainnet_beta
  | devnet
  | testnet.

(** The lifecycle events the adapter emits, with their payloads.  The
    first five are the events named by [ADAPTER_EVENTS]; [EvNamed] is an
    event emitted under a name written out as a string, which is a
    different event even when the string spells one of those names in
    capitals. *)
Inductive AdapterEvent : Type :=
  | EvREADY (name : string)
  | EvCONNECTING (adapter : string)
  | EvCONNECTED (adapter : string) (reconnected : bool)
  | EvDISCONNECTED
  | EvERRORED (e : JsError)
  | EvNamed (name : string) (e : JsError).

Global Instance AdapterEvent_eq_dec : EqDecision AdapterEvent.
Proof. solve_decision. Defined.

(** Modelled from the spec: [DemonWalletAdapter] of [./demonWalletAdapter]
    is not among the sources.  The specification's injected wallet
    capability interface gives it a fallible [connect()], a [disconnect()],
    a [connected] boolean, a [publicKey] readable after connecting, and
    [on]/[off] for the "disconnect" notification.  The first two fields
    say how the browser extension behind the object will answer; the
    adapter registers a single listener, [_onDisconnect], so the listener
    table is the number of times it is registered. *)
Record DemonWalletAdapter : Type := mkWallet {
  ext_connect : JsError + option string;
  ext_disconnect : option JsError;
  network : Cluster;
  connected : bool;
  publicKey : option string;
  disconnectListeners : nat
}.

(** How the injected extension presents itself to a newly constructed
    wallet object. *)
Record Extension : Type := mkExtension {
  found_connected : bool;
  found_publicKey : option string;
  will_connect : JsError + option string;
  will_disconnect : option JsError
}.

Definition new_DemonWalletAdapter (ext : Extension) (network : Cluster)
  : DemonWalletAdapter :=
  mkWallet (will_connect ext) (will_disconnect ext) network
           (found_connected ext) (found_publicKey ext) 0.

Definition wallet_on (w : DemonWalletAdapter) : DemonWalletAdapter :=
  mkWallet (ext_connect w) (ext_disconnect w) (network w) (connected w)
           (publicKey w) (S (disconnectListeners w)).

Definition wallet_off (w : DemonWalletAdapter) : DemonWalletAdapter :=
  mkWallet (ext_connect w) (ext_disconnect w) (network w) (connected w)
           (publicKey w) (pred (disconnectListeners w)).

Definition wallet_connected (pk : option string) (w : DemonWalletAdapter)
  : DemonWalletAdapter :=
  mkWallet (ext_connect w) (ext_disconnect w) (network w) true pk
           (disconnectListeners w).

Definition wallet_disconnected (w : DemonWalletAdapter) : DemonWalletAdapter :=
  mkWallet (ext_connect w) (ext_disconnect w) (network w) false (publicKey w)
           (disconnectListeners w).

(** The inherited methods of the host framework's adapter base class, an
    external collaborator.  Each check either passes or throws; what it
    decides on is the status.  [defaultChainConfig] is the configuration
    the inherited [init] falls back on. *)
Record BaseAdapter : Type := mkBase {
  checkInitializationRequirements : ADAPTER_STATUS -> option JsError;
  checkConnectionRequirements : ADAPTER_STATUS -> option JsError;
  disconnectSession : ADAPTER_STATUS -> option JsError;
  super_disconnect : ADAPTER_STATUS -> option JsError;
  checkAddChainRequirements : bool -> ADAPTER_STATUS -> option JsError;
  checkSwitchChainRequirements :
    string -> bool -> ADAPTER_STATUS -> option JsError;
  defaultChainConfig : CustomChainConfig
}.

(** Modelled from the spec: the base class is not among the sources.  The
    specification requires the current state to be READY for [connect()]
    and otherwise fails with a precondition error; it states no
    requirement for the other operations, and no default chain
    configuration: the one given here is the Solana main network, chain
    id "0x1", which is the first entry of the adapter's own table. *)
Definition specBase : BaseAdapter :=
  mkBase
    (fun _ => None)
    (fun st => if decide (st = READY) then None
               else Some (mkError PreconditionError "connect requires READY"))
    (fun _ => None)
    (fun _ => None)
    (fun _ _ => None)
    (fun _ _ _ => None)
    (mkChainConfig SOLANA "0x1" "default-rpc").

Module Adapter.
Section Adapter.

Context {W : Type}.

Local Abbreviation JRPCMiddleware := (Router.JRPCMiddleware W).
Local Abbreviation IProviderHandlers := (Router.IProviderHandlers W).

(** [BaseInjectedProvider]: the stored configuration, the [chainId] of
    its state, and the middleware stack of the engine behind the provider
    proxy, absent until [setupProvider] has run. *)
Record DemonInjectedProvider : Type := mkProvider {
  config : ProviderChainConfig;
  state_chainId : option string;
  provider : option (list JRPCMiddleware)
}.

(** The constructor of [BaseInjectedProvider], as far as it builds the
    object. *)
Definition new_DemonInjectedProvider (chainConfig : option CustomChainConfig)
  : DemonInjectedProvider :=
  mkProvider (spread_chainConfig chainConfig) None None.

(** The members of [DemonInjectedProvider] ([./providerHandlers], not
    among the sources) that [BaseInjectedProvider] leaves abstract or
    lets a subclass override, and what it inherits from the provider
    base class: the [addChain], which either throws or records the chain
    in a table that nothing here reads, and the error with which the
    constructor refuses a configuration that lacks its chain id or its
    RPC target.  The wallet is passed by reference. *)
Record ProviderSubclass : Type := mkSubclass {
  getProviderHandlers : nat -> IProviderHandlers;
  getInjectedProviderProxy : nat -> option JRPCMiddleware;
  switchChain_override :
    DemonInjectedProvider -> string -> JsError + DemonInjectedProvider;
  provider_addChain : CustomChainConfig -> option JsError;
  invalidProviderConfig : JsError
}.

(** [new DemonInjectedProvider({ config })]: the provider of
    [new_DemonInjectedProvider], unless the constructor of the provider
    base class finds the chain id or the RPC target missing. *)
Definition construct_DemonInjectedProvider (sub : ProviderSubclass)
    (chainConfig : option CustomChainConfig)
  : JsError + DemonInjectedProvider :=
  let p := new_DemonInjectedProvider chainConfig in
  match pc_chainId (config p), pc_rpcTarget (config p) with
  | Some _, Some _ => inr p
  | _, _ => inl (invalidProviderConfig sub)
  end.

(** [BaseInjectedProvider.switchChain] *)
Definition BaseInjectedProvider_switchChain
    (p : DemonInjectedProvider) (chainId : string)
  : JsError + DemonInjectedProvider :=
  inl (WalletLoginError.unsupportedOperation
         "Chain switching is not supported by this adapter").


(** [BaseInjectedProvider.getInjectedProviderProxy] *)
Definition BaseInjectedProvider_getInjectedProviderProxy (injected : nat)
  : option JRPCMiddleware := None.

(** [lookupNetwork] *)
Definition lookupNetwork (p : DemonInjectedProvider) : DemonInjectedProvider :=
  mkProvider (config p) (pc_chainId (config p)) (provider p).

(** [setupProvider].  The engine is kept in the provider; the proxy the
    provider hands out always forwards to the engine of the latest
    [setupProvider], so a request made through it is a request to the
    engine the provider holds at that moment. *)
Definition setupProvider (sub : ProviderSubclass)
    (p : DemonInjectedProvider) (injectedProvider : nat)
  : DemonInjectedProvider :=
  let providerHandlers := getProviderHandlers sub injectedProvider in
  let solanaMiddleware := Router.createSolanaMiddleware providerHandlers in
  let configMiddleware := Router.createConfigMiddleware (config p) in
  let engine :=
    ([solanaMiddleware; configMiddleware] ++
     match getInjectedProviderProxy sub injectedProvider with
     | Some injectedProviderProxy => [injectedProviderProxy]
     | None => []
     end)%list in
  lookupNetwork (mkProvider (config p) (state_chainId p) (Some engine)).

(** What a caller of the provider gets back for a request. *)
Inductive Reply : Type :=
  | Answered (res : JRPCResponse)
  | Rejected (e : JsError)
  | Unclaimed.

(** One request through the engine: a fresh response object goes down
    the stack. *)
Definition handle (engine : list JRPCMiddleware) (req : JRPCRequest) (w : W)
  : Reply * W :=
  match Router.mergeMiddleware engine req (mkResponse None) w with
  | (Router.End, res, w') => (Answered res, w')
  | (Router.Fail e, _, w') => (Rejected e, w')
  | (Router.Next, _, w') => (Unclaimed, w')
  end.

(** The fields of the adapter, the wallet objects it has created (a
    wallet reference is an index into [heap]) and the events it has
    emitted, oldest first. *)
Record DemonAdapter : Type := mkAdapter {
  status : ADAPTER_STATUS;
  _wallet : option nat;
  demonProvider : option DemonInjectedProvider;
  chainConfig : option CustomChainConfig;
  knownChainConfigs : list CustomChainConfig;
  rehydrated : bool;
  heap : list DemonWalletAdapter;
  emitted : list AdapterEvent
}.

Definition set_status (v : ADAPTER_STATUS) (s : DemonAdapter) : DemonAdapter :=
  mkAdapter v (_wallet s) (demonProvider s) (chainConfig s)
            (knownChainConfigs s) (rehydrated s) (heap s) (emitted s).
Definition set__wallet (v : option nat) (s : DemonAdapter) : DemonAdapter :=
  mkAdapter (status s) v (demonProvider s) (chainConfig s)
            (knownChainConfigs s) (rehydrated s) (heap s) (emitted s).
Definition set_demonProvider (v : option DemonInjectedProvider)
    (s : DemonAdapter) : DemonAdapter :=
  mkAdapter (status s) (_wallet s) v (chainConfig s)
            (knownChainConfigs s) (rehydrated s) (heap s) (emitted s).
Definition set_chainConfig (v : option CustomChainConfig)
    (s : DemonAdapter) : DemonAdapter :=
  mkAdapter (status s) (_wallet s) (demonProvider s) v
            (knownChainConfigs s) (rehydrated s) (heap s) (emitted s).
Definition set_knownChainConfigs (v : list CustomChainConfig)
    (s : DemonAdapter) : DemonAdapter :=
  mkAdapter (status s) (_wallet s) (demonProvider s) (chainConfig s)
            v (rehydrated s) (heap s) (emitted s).
Definition set_rehydrated (v : bool) (s : DemonAdapter) : DemonAdapter :=
  mkAdapter (status s) (_wallet s) (demonProvider s) (chainConfig s)
            (knownChainConfigs s) v (heap s) (emitted s).
Definition set_heap (v : list DemonWalletAdapter) (s : DemonAdapter)
  : DemonAdapter :=
  mkAdapter (status s) (_wallet s) (demonProvider s) (chainConfig s)
            (knownChainConfigs s) (rehydrated s) v (emitted s).
Definition push_event (ev : AdapterEvent) (s : DemonAdapter) : DemonAdapter :=
  mkAdapter (status s) (_wallet s) (demonProvider s) (chainConfig s)
            (knownChainConfigs s) (rehydrated s) (heap s) (emitted s ++ [ev])%list.

(** The adapter as constructed: the field initialisers of the class. *)
Definition new_DemonAdapter (chainConfig : option CustomChainConfig)
  : DemonAdapter :=
  mkAdapter NOT_READY None None chainConfig
            (match chainConfig with Some c => [c] | None => [] end)
            false [] [].

(** *** Running a method

    A method body is a state transformer that may throw.  Besides the
    state it ends in, a run records every state the adapter passes
    through, one entry per assignment or emitted event, so that
    statements can speak about the points inside a method. *)
Record Run (A : Type) : Type := mkRun {
  outcome : JsError + A;
  final : DemonAdapter;
  visited : list DemonAdapter
}.
Arguments mkRun {A}.
Arguments outcome {A}.
Arguments final {A}.
Arguments visited {A}.

Definition Op (A : Type) : Type := DemonAdapter -> Run A.

Definition ret {A} (a : A) : Op A := fun s => mkRun (inr a) s [].
Definition throw {A} (e : JsError) : Op A := fun s => mkRun (inl e) s [].
Definition get : Op DemonAdapter := fun s => mkRun (inr s) s [].
Definition write (f : DemonAdapter -> DemonAdapter) : Op unit :=
  fun s => mkRun (inr tt) (f s) [f s].

Definition bind {A B} (m : Op A) (k : A -> Op B) : Op B :=
  fun s =>
    match m s with
    | mkRun (inl e) s' seen => mkRun (inl e) s' seen
    | mkRun (inr a) s' seen =>
        match k a s' with
        | mkRun o s'' seen' => mkRun o s'' (seen ++ seen')%list
        end
    end.

(** [try { body } catch (error) { handler }] *)
Definition try_catch {A} (body : Op A) (handler : JsError -> Op A) : Op A :=
  fun s =>
    match body s with
    | mkRun (inl e) s' seen =>
        match handler e s' with
        | mkRun o s'' seen' => mkRun o s'' (seen ++ seen')%list
        end
    | mkRun (inr a) s' seen => mkRun (inr a) s' seen
    end.

(** A check of the base class: throws or does nothing. *)
Definition check (c : option JsError) : Op unit :=
  match c with
  | Some e => throw e
  | None => ret tt
  end.

Definition emit (ev : AdapterEvent) : Op unit := write (push_event ev).

Notation "'let*' x ':=' m 'in' k" := (bind m (fun x => k))
  (at level 10, x name, m at level 100, k at level 200, only parsing).

(** *** Wallet objects on the heap *)

(** [new DemonWalletAdapter({ network })]: the reference of the new object. *)
Definition new_wallet (ext : Extension) (network : Cluster) : Op nat :=
  let* s := get in
  let* _ := write (set_heap
                     (heap s ++ [new_DemonWalletAdapter ext network])%list) in
  ret (length (heap s)).

Definition read_wallet {A} (r : nat) (f : DemonWalletAdapter -> A) (dflt : A)
  : Op A :=
  let* s := get in
  ret (match heap s !! r with Some w => f w | None => dflt end).

(** [wallet.connect()] *)
Definition wallet_connect (r : nat) : Op unit :=
  let* s := get in
  match ext_connect <$> heap s !! r with
  | Some (inl e) => throw e
  | Some (inr pk) => write (set_heap (alter (wallet_connected pk) r (heap s)))
  | None => ret tt
  end.

(** [wallet.disconnect()] *)
Definition wallet_disconnect (r : nat) : Op unit :=
  let* s := get in
  match ext_disconnect <$> heap s !! r with
  | Some (Some e) => throw e
  | Some None => write (set_heap (alter wallet_disconnected r (heap s)))
  | None => ret tt
  end.

(** *** The methods of [DemonAdapter] *)

(** [get provider()]: the handle is the provider's proxy, so what it
    serves is read off the provider the adapter holds when the request is
    made. *)
Definition get_provider (s : DemonAdapter) : option (list JRPCMiddleware) :=
  match demonProvider s with
  | Some p => provider p
  | None => None
  end.

(** [get isWalletConnected()] *)
Definition isWalletConnected (s : DemonAdapter) : bool :=
  match _wallet s with
  | Some r =>
      match heap s !! r with
      | Some w => connected w && bool_decide (status s = CONNECTED)
      | None => false
      end
  | None => false
  end.

Definition connectWithProvider (sub : ProviderSubclass) (injectedProvider : nat)
  : Op (option (list JRPCMiddleware)) :=
  let* s := get in
  match demonProvider s with
  | None => throw (WalletLoginError.connectionError "No demon provider")
  | Some p =>
      let* _ := write (set_demonProvider
                         (Some (setupProvider sub p injectedProvider))) in
      let* _ := write (set_status CONNECTED) in
      let* s := get in
      let* _ := emit (EvCONNECTED "DEMON" (rehydrated s)) in
      let* s := get in
      ret (get_provider s)
  end.

(** The handler registered for the wallet's "disconnect" notification. *)
Definition _onDisconnect : Op unit :=
  let* s := get in
  match _wallet s with
  | Some r =>
      let* _ := write (set_heap (alter wallet_off r (heap s))) in
      let* _ := write (set_rehydrated false) in
      let* s := get in
      let* _ := write (set_status (if decide (status s = CONNECTED)
                                   then READY else NOT_READY)) in
      emit EvDISCONNECTED
  | None => ret tt
  end.

Definition connect (base : BaseAdapter) (sub : ProviderSubclass)
    (ext : Extension) : Op (option (list JRPCMiddleware)) :=
  try_catch
    (let* s := get in
     let* _ := check (checkConnectionRequirements base (status s)) in
     let* _ := write (set_status CONNECTING) in
     let* _ := emit (EvCONNECTING "DEMON") in
     let* s := get in
     let id := chainId <$> chainConfig s in
     let* cluster :=
       if decide (id = Some "0x1") then ret mainnet_beta
       else if decide (id = Some "0x2") then ret devnet
       else if decide (id = Some "0x3") then ret testnet
       else throw (WalletLoginError.connectionError
               "Invalid chainId, demon doesn't support custom solana networks") in
     let* wallet := new_wallet ext cluster in
     let* is_connected := read_wallet wallet connected false in
     let* _ :=
       if negb is_connected
       then try_catch (wallet_connect wallet)
              (fun error =>
                 if instanceof_Web3AuthError error then throw error
                 else throw (WalletLoginError.connectionError
                               (err_message error)))
       else ret tt in
     let* _ := connectWithProvider sub wallet in
     let* _ := write (set__wallet (Some wallet)) in
     let* pk := read_wallet wallet publicKey None in
     let* _ := match pk with
               | None => throw (WalletLoginError.connectionError "")
               | Some _ => ret tt
               end in
     let* _ := write (fun s => set_heap (alter wallet_on wallet (heap s)) s) in
     let* s := get in
     ret (get_provider s))
    (fun error =>
       (* ready again to be connected *)
       let* _ := write (set_status READY) in
       let* _ := write (set_rehydrated false) in
       let* _ := emit (EvERRORED error) in
       throw error).

(** The inherited [init] of the Solana base adapter: an adapter without
    a chain configuration gets the base class's default one, and a
    configuration that is there stays. *)
Definition BaseSolanaAdapter_init (base : BaseAdapter) : Op unit :=
  let* s := get in
  match chainConfig s with
  | Some _ => ret tt
  | None => write (set_chainConfig (Some (defaultChainConfig base)))
  end.

(** [init(options)]; of the options only [autoConnect] is read here.
    The handler of the [try] emits under the name "ERRORED" written out,
    not under [ADAPTER_EVENTS.ERRORED]. *)
Definition init (base : BaseAdapter) (sub : ProviderSubclass)
    (ext : Extension) (autoConnect : bool) : Op unit :=
  let* _ := BaseSolanaAdapter_init base in
  let* s := get in
  let* _ := check (checkInitializationRequirements base (status s)) in
  let* p := match construct_DemonInjectedProvider sub (chainConfig s) with
            | inl e => throw e
            | inr p => ret p
            end in
  let* _ := write (set_demonProvider (Some p)) in
  let* _ := write (set_status READY) in
  let* _ := emit (EvREADY "DEMON") in
  try_catch
    (if autoConnect
     then
       let* _ := write (set_rehydrated true) in
       let* _ := connect base sub ext in
       ret tt
     else ret tt)
    (fun error => emit (EvNamed "ERRORED" error)).

(** The inherited [disconnect()]: after its own check it clears the
    rehydration flag and emits DISCONNECTED. *)
Definition BaseAdapter_disconnect (base : BaseAdapter) : Op unit :=
  let* s := get in
  let* _ := check (super_disconnect base (status s)) in
  let* _ := write (set_rehydrated false) in
  emit EvDISCONNECTED.

Definition disconnect (base : BaseAdapter) (cleanup : bool) : Op unit :=
  let* s := get in
  let* _ := check (disconnectSession base (status s)) in
  try_catch
    (let* s := get in
     let* _ := match _wallet s with
               | Some r => wallet_disconnect r
               | None => ret tt
               end in
     let* _ :=
       if cleanup
       then
         let* _ := write (set_status NOT_READY) in
         let* _ := write (set_demonProvider None) in
         write (set__wallet None)
       else write (set_status READY) in
     BaseAdapter_disconnect base)
    (fun error =>
       emit (EvERRORED (WalletLoginError.disconnectionError
                          (err_message error)))).

Definition getUserInfo : Op unit :=
  let* s := get in
  if negb (isWalletConnected s)
  then throw (WalletLoginError.notConnectedError
                "Not connected with wallet, Please login/connect first")
  else ret tt.

(** The inherited [addChainConfig], [getChainConfig] and
    [setAdapterSettings({ chainConfig })]: the known configurations are
    kept by chain id, so that of two added under one id the later is the
    one looked up, the newest standing first here; [setAdapterSettings]
    returns at once while the adapter is READY, and an absent
    configuration changes no setting. *)
Definition addChainConfig (c : CustomChainConfig) : Op unit :=
  write (fun s => set_knownChainConfigs (c :: knownChainConfigs s) s).

Definition getChainConfig (s : DemonAdapter) (id : string)
  : option CustomChainConfig :=
  List.find (fun c => bool_decide (chainId c = id)) (knownChainConfigs s).

Definition setAdapterSettings (c : option CustomChainConfig) : Op unit :=
  let* s := get in
  if decide (status s = READY) then ret tt
  else
    match c with
    | Some c => write (set_chainConfig (Some c))
    | None => ret tt
    end.

(** [addChain]: the provider's [addChain], when there is a provider,
    comes between the check and [addChainConfig], and what it throws
    leaves [addChain] at once. *)
Definition addChain (base : BaseAdapter) (sub : ProviderSubclass)
    (c : CustomChainConfig) (init : bool) : Op unit :=
  let* s := get in
  let* _ := check (checkAddChainRequirements base init (status s)) in
  let* _ := match demonProvider s with
            | Some _ => check (provider_addChain sub c)
            | None => ret tt
            end in
  addChainConfig c.

Definition switchChain (base : BaseAdapter) (sub : ProviderSubclass)
    (id : string) (init : bool) : Op unit :=
  let* s := get in
  let* _ := check (checkSwitchChainRequirements base id init (status s)) in
  let* _ := match demonProvider s with
            | Some p =>
                match switchChain_override sub p id with
                | inl e => throw e
                | inr p' => write (set_demonProvider (Some p'))
                end
            | None => ret tt
            end in
  let* s := get in
  setAdapterSettings (getChainConfig s id).

(** *** The wallet's notification

    Modelled from the spec: the wallet object fires "disconnect" by
    calling every listener registered at that moment. *)
Fixpoint call_listeners (n : nat) : Op unit :=
  match n with
  | 0 => ret tt
  | S n => let* _ := _onDisconnect in call_listeners n
  end.

Definition fire_disconnect (r : nat) : Op unit :=
  let* s := get in
  match heap s !! r with
  | Some w => call_listeners (disconnectListeners w)
  | None => ret tt
  end.

(** *** Everything that can happen to an adapter *)
Inductive Call : Type :=
  | CallInit (ext : Extension) (autoConnect : bool)
  | CallConnect (ext : Extension)
  | CallDisconnect (cleanup : bool)
  | CallGetUserInfo
  | CallAddChain (c : CustomChainConfig) (init : bool)
  | CallSwitchChain (id : string) (init : bool)
  | WalletFiresDisconnect (r : nat).

Definition discard {A} (m : Op A) : Op unit := let* _ := m in ret tt.

Definition run_call (base : BaseAdapter) (sub : ProviderSubclass) (c : Call)
  : Op unit :=
  match c with
  | CallInit ext autoConnect => init base sub ext autoConnect
  | CallConnect ext => discard (connect base sub ext)
  | CallDisconnect cleanup => disconnect base cleanup
  | CallGetUserInfo => getUserInfo
  | CallAddChain c init => addChain base sub c init
  | CallSwitchChain id init => switchChain base sub id init
  | WalletFiresDisconnect r => fire_disconnect r
  end.

(** The state after a sequence of calls, whether they succeed or not. *)
Definition after_calls (base : BaseAdapter) (sub : ProviderSubclass)
    (calls : list Call) (s : DemonAdapter) : DemonAdapter :=
  foldl (fun s c => final (run_call base sub c s)) s calls.

(** *** Vocabulary of the statements *)

(** Both references are populated. *)
Definition holdsBoth (s : DemonAdapter) : Prop :=
  is_Some (_wallet s) /\ is_Some (demonProvider s).

(** CONNECTED comes with both references. *)
Definition connectedHoldsBoth (s : DemonAdapter) : Prop :=
  status s = CONNECTED -> holdsBoth s.

(** CONNECTED comes with both references, and the wallet referred to
    has [_onDisconnect] registered exactly once. *)
Definition connectedAndListening (s : DemonAdapter) : Prop :=
  status s = CONNECTED ->
  is_Some (demonProvider s) /\
  exists r w, _wallet s = Some r /\ heap s !! r = Some w /\
              disconnectListeners w = 1.

(** How many DISCONNECTED events a log holds. *)
Definition countDisconnected (log : list AdapterEvent) : nat :=
  length (filter (fun ev => ev = EvDISCONNECTED) log).

(** The chain ids [connect] resolves to a network. *)
Definition supportedChain (c : option CustomChainConfig) : Prop :=
  chainId <$> c ∈ [Some "0x1"; Some "0x2"; Some "0x3"].

(** The wallet object built on this extension is connected and shows a
    public key by the time [connect] looks at it: either it is found so,
    or its [connect()] is called and grants one. *)
Definition comesUpWithKey (ext : Extension) : bool :=
  if found_connected ext
  then bool_decide (is_Some (found_publicKey ext))
  else match will_connect ext with
       | inr (Some _) => true
       | _ => false
       end.

(** The error the wallet's [disconnect()] throws for the adapter as it
    stands, if it throws. *)
Definition walletDisconnectError (s : DemonAdapter) : option JsError :=
  match _wallet s with
  | Some r =>
      match ext_disconnect <$> heap s !! r with
      | Some (Some e) => Some e
      | _ => None
      end
  | None => None
  end.

(** The error raised inside the [try] of [disconnect], if one is: that of
    the wallet, else that of the inherited [disconnect()], which sees the
    status [disconnect] has set by then. *)
Definition teardownError (base : BaseAdapter) (cleanup : bool)
    (s : DemonAdapter) : option JsError :=
  match walletDisconnectError s with
  | Some e => Some e
  | None => super_disconnect base (if cleanup then NOT_READY else READY)
  end.

(** The text of the error [getUserInfo] throws. *)
Definition notConnectedMessage : string :=
  "Not connected with wallet, Please login/connect first".

End Adapter.

Arguments mkRun {W A}.
Arguments outcome {W A}.
Arguments final {W A}.
Arguments visited {W A}.
Arguments DemonAdapter : clear implicits.
Arguments DemonInjectedProvider : clear implicits.
Arguments ProviderSubclass : clear implicits.
Arguments Run : clear implicits.
Arguments Op : clear implicits.

End Adapter.

(** ** Scenarios

    Concrete collaborators on which the statements below are exercised.
    The world is the log of handler invocations. *)

Module Scenario.
Import Router Adapter.

Definition Log : Type := list string.

(** A handler that records its invocation and returns [v]. *)
Definition logging (tag : string) (v : JValue) : Handler Log :=
  fun req w => (inr v, (w ++ [tag +:+ ":" +:+ method req])%list).

(** A handler that records its invocation and throws. *)
Definition failing (tag : string) : Handler Log :=
  fun req w => (inl (Error (tag +:+ " failed")), (w ++ [tag])%list).

(** A handler that answers with the method name of the request it is
    given. *)
Definition echoing : Handler Log :=
  fun req w => (inr (JString (method req)), w).

(** A wallet that offers accounts and a private key, but neither signing
    nor a secret key. *)
Definition partialHandlers : IProviderHandlers Log :=
  mkHandlers (Some (logging "getAccounts" (JStrings ["acct"])))
             (Some (logging "requestAccounts" (JStrings ["acct"])))
             (Some (failing "signTransaction"))
             None None None
             (Some (logging "getPrivateKey" (JString "key")))
             None.

Definition noHandlers : IProviderHandlers Log :=
  mkHandlers None None None None None None None None.

Definition echoHandlers : IProviderHandlers Log :=
  mkHandlers None None None None None None (Some echoing) None.

(** Two bindings of one name, as a test double would have them. *)
Definition doubled : list (Binding Log) :=
  [Generic "signMessage" (Some (logging "first" (JString "one")));
   Generic "signMessage" (Some (logging "second" (JString "two")))].

Definition mainnet : CustomChainConfig :=
  mkChainConfig SOLANA "0x1" "rpc-main".
Definition customConfig : CustomChainConfig :=
  mkChainConfig SOLANA "0x4" "rpc-own".

(** The provider subclass of the scenarios: handlers for two of the
    wallet methods, no pass-through stage, and for chain switching and
    [addChain] what the provider base classes define. *)
Definition demonSubclass : ProviderSubclass Log :=
  mkSubclass
    (fun _ => partialHandlers)
    BaseInjectedProvider_getInjectedProviderProxy
    BaseInjectedProvider_switchChain
    (fun _ => None)
    (Error "Please provide chainId inside chainConfig").


(** An extension that is not yet connected and grants the connection. *)
Definition grants : Extension :=
  mkExtension false None (inr (Some "PublicKey")) None.

(** A base class that refuses to end a session while the adapter is not
    CONNECTED, and is otherwise [specBase]. *)
Definition strictBase : BaseAdapter :=
  mkBase
    (checkInitializationRequirements specBase)
    (checkConnectionRequirements specBase)
    (fun st => if decide (st = CONNECTED) then None
               else Some (WalletLoginError.disconnectionError
                            "Not connected with wallet"))
    (super_disconnect specBase)
    (checkAddChainRequirements specBase)
    (checkSwitchChainRequirements specBase)
    (defaultChainConfig specBase).

(** An extension whose user declines the connection. *)
Definition refuses : Extension :=
  mkExtension false None (inl (Error "User rejected the request")) None.

(** An extension that connects without showing a public key. *)
Definition keyless : Extension :=
  mkExtension false None (inr None) None.

(** An extension that grants the connection but fails to disconnect. *)
Definition clings : Extension :=
  mkExtension false None (inr (Some "PublicKey"))
              (Some (Error "Extension is busy")).

(** A base class none of whose checks ever throws. *)
Definition lenientBase : BaseAdapter :=
  mkBase (fun _ => None) (fun _ => None) (fun _ => None) (fun _ => None)
         (fun _ _ => None) (fun _ _ _ => None)
         (defaultChainConfig specBase).

(** A pass-through stage that answers every request with its method
    name. *)
Definition passThrough : JRPCMiddleware Log :=
  fun req res w =>
    (End, mkResponse (Some (JString (method req))), (w ++ ["proxy"])%list).

(** A provider subclass that installs the pass-through stage. *)
Definition proxySubclass : ProviderSubclass Log :=
  mkSubclass
    (fun _ => partialHandlers)
    (fun _ => Some passThrough)
    (switchChain_override demonSubclass)
    (provider_addChain demonSubclass)
    (invalidProviderConfig demonSubclass).

Definition constructed (c : CustomChainConfig) : DemonAdapter Log :=
  new_DemonAdapter (Some c).

(** After [init()] without auto-connect. *)
Definition initialised (c : CustomChainConfig) : DemonAdapter Log :=
  final (init specBase demonSubclass grants false (constructed c)).

(** After [init()] and a first [connect()]. *)
Definition firstConnect (c : CustomChainConfig)
  : Run Log (option (list (JRPCMiddleware Log))) :=
  connect specBase demonSubclass grants (initialised c).

Definition connectedOnce (c : CustomChainConfig) : DemonAdapter Log :=
  final (firstConnect c).




End Scenario.

(** * Properties of the method router *)

Module RouterFacts.
Import Router.

Section Facts.
Context {W : Type}.
Implicit Types (req : JRPCRequest) (res : JRPCResponse) (w : W).
Implicit Types (h : Handler W) (b : Binding W) (bs : list (Binding W)).
Implicit Types (ph : IProviderHandlers W).

Lemma binding_other b req res w :
  method req <> bindingName b ->
  bindingMiddleware b req res w = (Next, res, w).
Proof.
  intros Hne.
  destruct b as [o|o|t o]; simpl in Hne;
    unfold bindingMiddleware, createRequestAccountsMiddleware,
      createGetAccountsMiddleware, createGenericJRPCMiddleware,
      createAsyncMiddleware;
    case_decide; done.
Qed.

Lemma binding_hit b h req res w :
  method req = bindingName b ->
  bindingHandler b = Some h ->
  bindingMiddleware b req res w = awaitInto h req res w.
Proof.
  intros Hm Hh.
  destruct b as [o|o|t o]; simpl in Hm, Hh; subst o;
    unfold bindingMiddleware, createRequestAccountsMiddleware,
      createGetAccountsMiddleware, createGenericJRPCMiddleware,
      createAsyncMiddleware, awaitInto;
    (case_decide; [done|]);
    destruct (h req w) as [[e|v] w']; reflexivity.
Qed.

Lemma binding_missing b req res w :
  method req = bindingName b ->
  bindingHandler b = None ->
  exists e, bindingMiddleware b req res w = (Fail e, res, w) /\
            handlerNotProvided (method req) e.
Proof.
  intros Hm Hh.
  destruct b as [o|o|t o]; simpl in Hm, Hh; subst o; rewrite Hm;
    unfold bindingMiddleware, createRequestAccountsMiddleware,
      createGetAccountsMiddleware, createGenericJRPCMiddleware,
      createAsyncMiddleware;
    (case_decide; [done|]).
  - eexists; split; [reflexivity|]. split; [reflexivity|].
    exists "WalletMiddleware - opts.". reflexivity.
  - eexists; split; [reflexivity|]. split; [reflexivity|].
    exists "WalletMiddleware - opts.". reflexivity.
  - eexists; split; [reflexivity|]. split; [reflexivity|].
    exists "WalletMiddleware - ". reflexivity.
Qed.

Lemma firstBinding_name bs m b :
  firstBinding bs m = Some b -> m = bindingName b.
Proof.
  induction bs as [|b' bs IH]; simpl; [done|].
  case_decide; [intros [= <-]; done | apply IH].
Qed.

(** A chain behaves as the first binding of the requested name alone;
    whatever comes after it in the list is immaterial. *)
Lemma dispatch_first bs b req res w :
  firstBinding bs (method req) = Some b ->
  dispatch bs req res w = bindingMiddleware b req res w.
Proof.
  unfold dispatch.
  induction bs as [|b' bs IH]; simpl; [done|].
  case_decide as Hd.
  - intros [= <-].
    destruct (bindingMiddleware b' req res w) as [[[| |e] res'] w'] eqn:E;
      try reflexivity.
    exfalso.
    destruct (bindingHandler b') as [h|] eqn:Hh.
    + rewrite (binding_hit b' h) in E by done.
      unfold awaitInto in E. destruct (h req w) as [[?|?] ?]; discriminate.
    + destruct (binding_missing b' req res w Hd Hh) as (e & E' & _).
      congruence.
  - intros Hf. rewrite binding_other by done. apply IH, Hf.
Qed.

Lemma dispatch_none bs req res w :
  firstBinding bs (method req) = None ->
  dispatch bs req res w = (Next, res, w).
Proof.
  unfold dispatch.
  induction bs as [|b' bs IH]; simpl; [done|].
  case_decide as Hd; [done|].
  intros Hf. rewrite binding_other by done. apply IH, Hf.
Qed.

Lemma createSolanaMiddleware_dispatch ph :
  createSolanaMiddleware ph = dispatch (solanaBindings ph).
Proof. reflexivity. Qed.

(** The names bound by [createSolanaMiddleware]. *)
Lemma solanaBindings_names ph :
  map bindingName (solanaBindings ph) = take 9 boundMethods.
Proof. reflexivity. Qed.

Lemma firstBinding_unbound bs m :
  m ∉ map bindingName bs -> firstBinding bs m = None.
Proof.
  induction bs as [|b bs IH]; simpl; [done|].
  intros Hn. apply not_elem_of_cons in Hn as [Hne Hn].
  case_decide; [done|]. apply IH, Hn.
Qed.

Lemma config_other (cfg : ProviderChainConfig) req res w :
  method req <> "solana_chainId" ->
  method req <> "solana_provider_config" ->
  createConfigMiddleware (W:=W) cfg req res w = (Next, res, w).
Proof.
  intros H1 H2.
  unfold createConfigMiddleware, createChainIdMiddleware,
    createProviderConfigMiddleware; simpl.
  repeat (case_decide; [done|]). reflexivity.
Qed.



Lemma firstBinding_app bs later m b :
  firstBinding bs m = Some b -> firstBinding (bs ++ later)%list m = Some b.
Proof.
  induction bs as [|b' bs IH]; simpl; [done|].
  case_decide; [done | apply IH].
Qed.

Lemma merge_stops (mw : JRPCMiddleware W) stages req res w e res' w' :
  mw req res w = (Fail e, res', w') ->
  mergeMiddleware (mw :: stages) req res w = (Fail e, res', w').
Proof. intros E. simpl. rewrite E. reflexivity. Qed.

(** C7: when the requested method is the name of some binding, dispatch
    awaits the handler of the first such binding with the request, stores
    what it returns in [response.result] and ends the chain; when the
    handler throws, the request fails with that error.  Either way the
    outcome and the world are those of that one handler, whatever
    bindings follow it; this holds in particular for the bindings of
    [createSolanaMiddleware]. *)
Theorem first_binding_handles bs b h req res w :
  firstBinding bs (method req) = Some b ->
  bindingHandler b = Some h ->
  dispatch bs req res w = awaitInto h req res w /\
  (forall later, dispatch (bs ++ later)%list req res w = awaitInto h req res w) /\
  (forall ph, bs = solanaBindings ph ->
              createSolanaMiddleware ph req res w = awaitInto h req res w).
Proof.
  intros Hf Hh.
  assert (Hm : method req = bindingName b) by (eapply firstBinding_name, Hf).
  repeat split.
  - rewrite (dispatch_first bs b) by done. by apply binding_hit.
  - intros later.
    rewrite (dispatch_first (bs ++ later)%list b)
      by (by apply firstBinding_app).
    by apply binding_hit.
  - intros ph ->. rewrite createSolanaMiddleware_dispatch.
    rewrite (dispatch_first _ b) by done. by apply binding_hit.
Qed.

(** C8: a request whose method is none of the bound names (the nine
    business methods, [solana_chainId], [solana_provider_config]) passes
    through the business middleware, the config responder and the two
    in sequence with the response as it was and the signal to go on to
    the next stage; no error is raised. *)
Theorem unbound_method_falls_through ph (cfg : ProviderChainConfig) req res w :
  method req ∉ boundMethods ->
  createSolanaMiddleware ph req res w = (Next, res, w) /\
  createConfigMiddleware cfg req res w = (Next, res, w) /\
  mergeMiddleware [createSolanaMiddleware ph; createConfigMiddleware cfg]
    req res w = (Next, res, w).
Proof.
  intros Hn.
  assert (H1 : createSolanaMiddleware ph req res w = (Next, res, w)).
  { rewrite createSolanaMiddleware_dispatch. apply dispatch_none.
    apply firstBinding_unbound. rewrite solanaBindings_names.
    intros Hin. apply Hn. eapply subseteq_take, Hin. }
  assert (H2 : createConfigMiddleware cfg req res w = (Next, res, w)).
  { apply config_other; intros E; apply Hn; rewrite E; unfold boundMethods;
      rewrite !elem_of_cons; naive_solver. }
  repeat split; [done | done |].
  simpl. rewrite H1, H2. reflexivity.
Qed.

(** C9: when the first binding of the requested method has no handler,
    dispatch fails with an [Error] whose message is a prefix, the method
    name and " not provided".  The response is left as it was, and the
    failure stands whatever bindings or stages come later; this holds in
    particular for the bindings of [createSolanaMiddleware]. *)
Theorem absent_handler_fails bs b req res w :
  firstBinding bs (method req) = Some b ->
  bindingHandler b = None ->
  exists e,
    handlerNotProvided (method req) e /\
    dispatch bs req res w = (Fail e, res, w) /\
    (forall later, dispatch (bs ++ later)%list req res w = (Fail e, res, w)) /\
    (forall stages,
       mergeMiddleware (dispatch bs :: stages) req res w = (Fail e, res, w)) /\
    (forall ph, bs = solanaBindings ph ->
                createSolanaMiddleware ph req res w = (Fail e, res, w)).
Proof.
  intros Hf Hh.
  assert (Hm : method req = bindingName b) by (eapply firstBinding_name, Hf).
  destruct (binding_missing b req res w Hm Hh) as (e & E & Hnp).
  assert (Hd : dispatch bs req res w = (Fail e, res, w))
    by (by rewrite (dispatch_first bs b)).
  exists e. repeat split; try apply Hnp; try done.
  - intros later.
    by rewrite (dispatch_first (bs ++ later)%list b)
      by (by apply firstBinding_app).
  - intros stages. by apply merge_stops.
  - intros ph ->. by rewrite createSolanaMiddleware_dispatch.
Qed.

(** Every binding of [createSolanaMiddleware] is the first of its name. *)
Lemma solanaBindings_first ph b :
  b ∈ solanaBindings ph ->
  firstBinding (solanaBindings ph) (bindingName b) = Some b.
Proof.
  unfold solanaBindings. intros Hin.
  repeat (apply elem_of_cons in Hin as [-> | Hin]; [reflexivity|]).
  by apply elem_of_nil in Hin.
Qed.

(** C10, as the code has it: "solanaPrivateKey" and "private_key" are
    both answered by the [getPrivateKey] handler, each call passing its
    own request; the two results coincide whenever the handler treats
    the two requests alike.  When the handler is absent both fail with a
    not-provided error, each naming the method that was requested. *)
Theorem private_key_aliases ph (p : option JValue) res w :
  let viaSolana := mkRequest "solanaPrivateKey" p in
  let viaPlain := mkRequest "private_key" p in
  match getPrivateKey ph with
  | Some h =>
      createSolanaMiddleware ph viaSolana res w = awaitInto h viaSolana res w /\
      createSolanaMiddleware ph viaPlain res w = awaitInto h viaPlain res w /\
      (h viaSolana w = h viaPlain w ->
       createSolanaMiddleware ph viaSolana res w
       = createSolanaMiddleware ph viaPlain res w)
  | None =>
      createSolanaMiddleware ph viaSolana res w
      = (Fail (Error "WalletMiddleware - solanaPrivateKey not provided"), res, w) /\
      createSolanaMiddleware ph viaPlain res w
      = (Fail (Error "WalletMiddleware - private_key not provided"), res, w)
  end.
Proof.
  intros viaSolana viaPlain.
  destruct (getPrivateKey ph) as [h|] eqn:Hk.
  - assert (HA : createSolanaMiddleware ph viaSolana res w
                 = awaitInto h viaSolana res w).
    { rewrite createSolanaMiddleware_dispatch.
      rewrite (dispatch_first _ (Generic "solanaPrivateKey" (getPrivateKey ph)))
        by reflexivity.
      by apply binding_hit. }
    assert (HB : createSolanaMiddleware ph viaPlain res w
                 = awaitInto h viaPlain res w).
    { rewrite createSolanaMiddleware_dispatch.
      rewrite (dispatch_first _ (Generic "private_key" (getPrivateKey ph)))
        by reflexivity.
      by apply binding_hit. }
    repeat split; [done | done |].
    intros E. rewrite HA, HB. unfold awaitInto. rewrite E. reflexivity.
  - split.
    + rewrite createSolanaMiddleware_dispatch.
      rewrite (dispatch_first _ (Generic "solanaPrivateKey" (getPrivateKey ph)))
        by reflexivity.
      rewrite Hk. reflexivity.
    + rewrite createSolanaMiddleware_dispatch.
      rewrite (dispatch_first _ (Generic "private_key" (getPrivateKey ph)))
        by reflexivity.
      rewrite Hk. reflexivity.
Qed.

End Facts.

(** The first of two bindings of one name answers; the second is never
    invoked. *)
Lemma first_binding_handles_witness :
  dispatch Scenario.doubled (mkRequest "signMessage" None) (mkResponse None) []
  = (End, mkResponse (Some (JString "one")), ["first:signMessage"]).
Proof.
  exact (proj1 (first_binding_handles
                  Scenario.doubled _ _
                  (mkRequest "signMessage" None) (mkResponse None) []
                  eq_refl eq_refl)).
Defined.

(** A handler that throws fails the request; no later binding runs. *)
Example throwing_handler_stops_chain :
  createSolanaMiddleware Scenario.partialHandlers
    (mkRequest "signTransaction" None) (mkResponse None) []
  = (Fail (Error "signTransaction failed"), mkResponse None,
     ["signTransaction"]).
Proof. reflexivity. Qed.

Lemma unbound_method_falls_through_witness :
  createSolanaMiddleware Scenario.partialHandlers
    (mkRequest "eth_sign" None) (mkResponse None) []
  = (Next, mkResponse None, []).
Proof.
  refine (proj1 (unbound_method_falls_through
                   Scenario.partialHandlers
                   (mkProviderChainConfig SOLANA None None)
                   (mkRequest "eth_sign" None) (mkResponse None) [] _)).
  unfold boundMethods; simpl.
  intros Hin.
  repeat (apply elem_of_cons in Hin as [Hin | Hin]; [discriminate Hin|]).
  by apply elem_of_nil in Hin.
Defined.

Lemma absent_handler_fails_witness :
  exists e,
    handlerNotProvided "signMessage" e /\
    createSolanaMiddleware Scenario.partialHandlers
      (mkRequest "signMessage" None) (mkResponse None) []
    = (Fail e, mkResponse None, []).
Proof.
  destruct (absent_handler_fails
              (solanaBindings Scenario.partialHandlers) _
              (mkRequest "signMessage" None) (mkResponse None) []
              eq_refl eq_refl) as (e & Hnp & _ & _ & _ & Hs).
  exists e. split; [exact Hnp | exact (Hs _ eq_refl)].
Defined.

(** C10, as stated, fails: with no [getPrivateKey] handler the two
    methods fail with different errors, and a handler that looks at the
    request it is given answers them differently. *)
Lemma private_key_aliases_differ :
  createSolanaMiddleware Scenario.noHandlers
    (mkRequest "solanaPrivateKey" None) (mkResponse None) []
  <> createSolanaMiddleware Scenario.noHandlers
       (mkRequest "private_key" None) (mkResponse None) []
  /\
  createSolanaMiddleware Scenario.echoHandlers
    (mkRequest "solanaPrivateKey" None) (mkResponse None) []
  <> createSolanaMiddleware Scenario.echoHandlers
       (mkRequest "private_key" None) (mkResponse None) [].
Proof. split; vm_compute; discriminate. Qed.

Lemma private_key_aliases_witness :
  createSolanaMiddleware Scenario.partialHandlers
    (mkRequest "solanaPrivateKey" None) (mkResponse None) []
  = (End, mkResponse (Some (JString "key")), ["getPrivateKey:solanaPrivateKey"]).
Proof.
  exact (proj1 (private_key_aliases Scenario.partialHandlers None
                  (mkResponse None) [])).
Defined.

End RouterFacts.

(** * Properties of the adapter *)

Module AdapterFacts.
Import Router Adapter.

Lemma lookup_fresh {A} (l : list A) (x : A) :
  (l ++ [x])%list !! length l = Some x.
Proof. by apply list_lookup_middle. Qed.

Lemma alter_fresh {A} (f : A -> A) (l : list A) (x : A) :
  alter f (length l) (l ++ [x])%list = (l ++ [f x])%list.
Proof.
  replace (length l) with (length l + 0) by lia.
  by rewrite alter_app_r.
Qed.

(** Symbolic execution of a method: unfold the monad, then split on
    whatever the run is waiting for, innermost first. *)
Ltac unfold_ops :=
  unfold run_call, discard, connect, init, BaseSolanaAdapter_init,
    construct_DemonInjectedProvider,
    disconnect, BaseAdapter_disconnect,
    getUserInfo, addChain, addChainConfig, switchChain, setAdapterSettings,
    _onDisconnect, connectWithProvider, new_wallet, read_wallet,
    wallet_connect, wallet_disconnect,
    try_catch, bind, get, check, write, emit, throw, ret.

Ltac stuck_step :=
  match goal with
  | |- context [match ?x with _ => _ end] =>
      lazymatch x with
      | context [match _ with _ => _ end] => fail
      | _ => destruct x eqn:?
      end
  end.

Ltac settle := simpl; rewrite ?alter_fresh, ?lookup_fresh; simpl.

Ltac run := settle; repeat (stuck_step; settle).




Local Opaque setupProvider.

Section Facts.
Context {W : Type}.
Implicit Types (s : DemonAdapter W) (base : BaseAdapter).
Implicit Types (sub : ProviderSubclass W) (ext : Extension).

(** What a run of [connect] that fails its entry check looks like. *)
Lemma connect_refused base sub ext s e :
  checkConnectionRequirements base (status s) = Some e ->
  connect base sub ext s
  = mkRun (inl e)
      (push_event (EvERRORED e) (set_rehydrated false (set_status READY s)))
      [set_status READY s;
       set_rehydrated false (set_status READY s);
       push_event (EvERRORED e) (set_rehydrated false (set_status READY s))].
Proof.
  intros Hc. unfold_ops; simpl. rewrite Hc. reflexivity.
Qed.

(** Inside [connect], CONNECTED is only ever seen with a provider. *)
Lemma connect_visits base sub ext s :
  Forall (fun s' => status s' = CONNECTED -> is_Some (demonProvider s'))
         (visited (connect base sub ext s)).
Proof.
  destruct s as [st wl dp cc kc rh hp em], ext as [fc fpk wc wd].
  unfold_ops. run.
  all: repeat constructor; simpl; try discriminate; eauto.
Qed.

(** The two ways [connect] ends. *)
Lemma connect_cases base sub ext s :
  match connect base sub ext s with
  | mkRun (inr engine) s' _ =>
      status s' = CONNECTED /\
      _wallet s' = Some (length (heap s)) /\
      chainConfig s' = chainConfig s /\
      (exists p, demonProvider s = Some p /\
                 demonProvider s' = Some (setupProvider sub p (length (heap s))) /\
                 engine = provider (setupProvider sub p (length (heap s)))) /\
      (exists w, heap s' = (heap s ++ [w])%list /\ disconnectListeners w = 1 /\
                 is_Some (publicKey w))
  | mkRun (inl e) s' _ => status s' = READY
  end.
Proof.
  destruct s as [st wl dp cc kc rh hp em], ext as [fc fpk wc wd].
  unfold_ops. run; try reflexivity;
    (split; [reflexivity|]); (split; [reflexivity|]); (split; [reflexivity|]);
    (split; [eexists; repeat split; reflexivity|]);
    eexists; repeat split; eauto.
Qed.

(** A [connect] that resolves. *)
Lemma connect_resolved base sub ext s engine :
  outcome (connect base sub ext s) = inr engine ->
  let s' := final (connect base sub ext s) in
  status s' = CONNECTED /\
  _wallet s' = Some (length (heap s)) /\
  chainConfig s' = chainConfig s /\
  (exists p, demonProvider s = Some p /\
             demonProvider s' = Some (setupProvider sub p (length (heap s))) /\
             engine = provider (setupProvider sub p (length (heap s)))) /\
  (exists w, heap s' = (heap s ++ [w])%list /\ disconnectListeners w = 1 /\
             is_Some (publicKey w)).
Proof.
  pose proof (connect_cases base sub ext s) as H.
  destruct (connect base sub ext s) as [[e|engine'] s' seen]; simpl;
    intros [= <-]. exact H.
Qed.

(** A [connect] that rejects. *)
Lemma connect_rejected base sub ext s e :
  outcome (connect base sub ext s) = inl e ->
  status (final (connect base sub ext s)) = READY.
Proof.
  pose proof (connect_cases base sub ext s) as H.
  destruct (connect base sub ext s) as [[e'|engine] s' seen]; simpl;
    intros [= <-]. exact H.
Qed.

(** *** The invariant between calls *)

Lemma connectedAndListening_both s :
  connectedAndListening s -> connectedHoldsBoth s.
Proof.
  intros H Hst. destruct (H Hst) as (Hp & r & w & Hw & _).
  split; [rewrite Hw; eauto | exact Hp].
Qed.

Lemma _onDisconnect_resolves s : outcome (_onDisconnect s) = inr ().
Proof. destruct s as [st wl dp cc kc rh hp em]. unfold_ops. run; reflexivity. Qed.

Lemma _onDisconnect_invariant s :
  connectedAndListening s -> connectedAndListening (final (_onDisconnect s)).
Proof.
  destruct s as [st wl dp cc kc rh hp em]. intros H.
  unfold_ops. run; [| | exact H];
    unfold connectedAndListening; simpl; intros; discriminate.
Qed.

Lemma call_listeners_resolves n s : outcome (call_listeners n s) = inr ().
Proof.
  revert s. induction n as [|n IH]; intros s; simpl; [reflexivity|].
  unfold bind. pose proof (_onDisconnect_resolves s) as Ho.
  destruct (_onDisconnect s) as [[e|[]] s' seen]; simpl in Ho; [discriminate|].
  specialize (IH s'). destruct (call_listeners n s') as [o s'' seen'].
  exact IH.
Qed.

Lemma call_listeners_invariant n s :
  connectedAndListening s -> connectedAndListening (final (call_listeners n s)).
Proof.
  revert s. induction n as [|n IH]; intros s H; simpl; [exact H|].
  unfold bind. pose proof (_onDisconnect_invariant s H) as H'.
  destruct (_onDisconnect s) as [[e|[]] s' seen]; simpl in H'; [exact H'|].
  specialize (IH s' H'). destruct (call_listeners n s') as [o s'' seen'].
  exact IH.
Qed.

Lemma fire_disconnect_invariant r s :
  connectedAndListening s -> connectedAndListening (final (fire_disconnect r s)).
Proof.
  intros H. unfold fire_disconnect, bind, get; simpl.
  destruct (heap s !! r) as [w|]; simpl; [| exact H].
  pose proof (call_listeners_invariant (disconnectListeners w) s H) as H'.
  destruct (call_listeners (disconnectListeners w) s) as [o s' seen].
  exact H'.
Qed.

Lemma connect_invariant base sub ext s :
  connectedAndListening (final (connect base sub ext s)).
Proof.
  pose proof (connect_cases base sub ext s) as H.
  destruct (connect base sub ext s) as [[e|engine] s' seen]; simpl;
    intros Hst; [congruence|].
  destruct H as (_ & Hw & _ & (p & _ & Hp & _) & (w & Hh & Hl & _)).
  split; [rewrite Hp; eauto|].
  exists (length (heap s)), w. rewrite Hh. eauto using lookup_fresh.
Qed.

Ltac invariant_cases H :=
  unfold connectedAndListening in *; simpl in *;
  first [ exact H
        | intros; discriminate
        | let Hst := fresh in
          intros Hst; destruct (H Hst) as (? & ? & ? & ? & ? & ?);
          split; [eauto | eexists _, _; eauto] ].

(** The inherited [init] cannot fail, and changes nothing but an absent
    chain configuration. *)
Lemma BaseSolanaAdapter_init_run base s :
  exists seen,
    BaseSolanaAdapter_init base s
    = mkRun (inr tt) (final (BaseSolanaAdapter_init base s)) seen
    /\ Forall (fun v => v = final (BaseSolanaAdapter_init base s)) seen.
Proof.
  unfold BaseSolanaAdapter_init, bind, get; simpl.
  destruct (chainConfig s); simpl; eauto.
Qed.

Lemma BaseSolanaAdapter_init_fields base s :
  let s0 := final (BaseSolanaAdapter_init base s) in
  status s0 = status s /\ _wallet s0 = _wallet s /\
  demonProvider s0 = demonProvider s /\
  knownChainConfigs s0 = knownChainConfigs s /\
  rehydrated s0 = rehydrated s /\ heap s0 = heap s /\
  emitted s0 = emitted s /\
  chainConfig s0
  = Some (default (defaultChainConfig base) (chainConfig s)).
Proof.
  destruct s as [st wl dp cc kc rh hp em].
  unfold BaseSolanaAdapter_init, bind, get; simpl.
  destruct cc; simpl; auto 10.
Qed.

Lemma BaseSolanaAdapter_init_invariant base s :
  connectedAndListening s ->
  connectedAndListening (final (BaseSolanaAdapter_init base s)).
Proof.
  destruct (BaseSolanaAdapter_init_fields base s)
    as (Hst & Hw & Hp & _ & _ & Hh & _).
  unfold connectedAndListening. rewrite Hst, Hw, Hp, Hh. auto.
Qed.

(** After the inherited [init] the provider's constructor has what it
    asks for. *)
Lemma construct_after_inherited_init base sub s :
  construct_DemonInjectedProvider sub
    (chainConfig (final (BaseSolanaAdapter_init base s)))
  = inr (new_DemonInjectedProvider
           (chainConfig (final (BaseSolanaAdapter_init base s)))).
Proof.
  destruct (BaseSolanaAdapter_init_fields base s) as (_ & _ & _ & _ & _ & _ & _ & ->).
  reflexivity.
Qed.

Lemma init_invariant base sub ext autoConnect s :
  connectedAndListening s ->
  connectedAndListening (final (init base sub ext autoConnect s)).
Proof.
  intros H0. apply (BaseSolanaAdapter_init_invariant base) in H0.
  unfold init. unfold bind at 1.
  pose proof (construct_after_inherited_init base sub s) as Hn.
  destruct (BaseSolanaAdapter_init_run base s) as (seen0 & -> & _).
  revert H0 Hn. generalize (final (BaseSolanaAdapter_init base s)).
  clear s. intros s H Hn.
  unfold bind at 1, get. simpl.
  unfold bind at 1, check.
  destruct (checkInitializationRequirements base (status s)) as [e|];
    [exact H|]. simpl.
  unfold bind at 1. rewrite Hn. unfold ret at 1.
  destruct autoConnect.
  - unfold bind at 1 2 3, write, emit. simpl. unfold try_catch.
    unfold bind at 1. simpl. unfold bind at 1.
    match goal with |- context [connect base sub ext ?st] =>
      pose proof (connect_invariant base sub ext st) as Hc;
      destruct (connect base sub ext st) as [[e|engine] s' seen]
    end; simpl in *.
    + intros Hst. destruct (Hc Hst) as (? & r & w & ? & ? & ?).
      split; [done | by exists r, w].
    + exact Hc.
  - destruct s as [st wl dp cc kc rh hp em].
    unfold_ops. run. intros; discriminate.
Qed.

Lemma disconnect_invariant base cleanup s :
  connectedAndListening s ->
  connectedAndListening (final (disconnect base cleanup s)).
Proof.
  destruct s as [st wl dp cc kc rh hp em]. intros H.
  unfold_ops. run; invariant_cases H.
Qed.

Lemma switchChain_invariant base sub id init s :
  connectedAndListening s ->
  connectedAndListening (final (switchChain base sub id init s)).
Proof.
  destruct s as [st wl dp cc kc rh hp em]. intros H.
  unfold_ops. run; invariant_cases H.
Qed.

Lemma call_invariant base sub (c : Call) s :
  connectedAndListening s ->
  connectedAndListening (final (run_call base sub c s)).
Proof.
  intros H. destruct c as [ext a|ext|cleanup| |c i|id i|r]; simpl.
  - by apply init_invariant.
  - unfold discard, bind.
    pose proof (connect_invariant base sub ext s) as Hc.
    destruct (connect base sub ext s) as [[e|engine] s' seen]; exact Hc.
  - by apply disconnect_invariant.
  - destruct s as [st wl dp cc kc rh hp em].
    unfold_ops. run; exact H.
  - destruct s as [st wl dp cc kc rh hp em].
    unfold_ops. run; invariant_cases H.
  - by apply switchChain_invariant.
  - by apply fire_disconnect_invariant.
Qed.

Lemma after_calls_invariant base sub (calls : list Call) s :
  connectedAndListening s ->
  connectedAndListening (after_calls base sub calls s).
Proof.
  unfold after_calls. revert s.
  induction calls as [|c calls IH]; intros s H; simpl; [exact H|].
  apply IH, call_invariant, H.
Qed.

Lemma new_DemonAdapter_invariant (c : option CustomChainConfig) :
  connectedAndListening (new_DemonAdapter (W:=W) c).
Proof. intros Hst. discriminate Hst. Qed.

(** C1, as the code has it: between calls (the adapter's methods and the
    wallet's notification, in any order, from construction on) CONNECTED
    comes with both [_wallet] and [demonProvider]; inside [connect] the
    status is set to CONNECTED only with [demonProvider] populated, the
    [_wallet] field being assigned after the transition; and a [connect]
    that resolves ends CONNECTED with both references. *)
Theorem connected_holds_both_between_calls base sub
    (c : option CustomChainConfig) (calls : list Call) ext s :
  connectedHoldsBoth (after_calls base sub calls (new_DemonAdapter c)) /\
  Forall (fun s' => status s' = CONNECTED -> is_Some (demonProvider s'))
         (visited (connect base sub ext s)) /\
  (forall engine,
     outcome (connect base sub ext s) = inr engine ->
     status (final (connect base sub ext s)) = CONNECTED /\
     holdsBoth (final (connect base sub ext s))).
Proof.
  split; [| split].
  - apply connectedAndListening_both, after_calls_invariant,
      new_DemonAdapter_invariant.
  - apply connect_visits.
  - intros engine Ho.
    destruct (connect_resolved base sub ext s engine Ho)
      as (Hst & _ & _ & _ & _).
    split; [exact Hst|].
    apply connectedAndListening_both; [apply connect_invariant | exact Hst].
Qed.

(** C2, where the code departs from the claim: [connect] called on a
    CONNECTED adapter rejects with the error of the entry check and
    leaves [_wallet], [demonProvider] and the wallet objects as they
    were, but the entry check stands inside the [try], so the handler
    meant for a failed attempt runs: the status goes from CONNECTED to
    READY and ERRORED is emitted, with the wallet of the first call still
    held. *)
Theorem second_connect_drops_connected base sub ext s e :
  status s = CONNECTED ->
  checkConnectionRequirements base CONNECTED = Some e ->
  let r := connect base sub ext s in
  outcome r = inl e /\
  _wallet (final r) = _wallet s /\
  demonProvider (final r) = demonProvider s /\
  heap (final r) = heap s /\
  status (final r) = READY /\
  status (final r) <> status s /\
  emitted (final r) = (emitted s ++ [EvERRORED e])%list.
Proof.
  intros Hst Hc r. subst r.
  rewrite (connect_refused base sub ext s e) by (by rewrite Hst).
  rewrite Hst. repeat split. discriminate.
Qed.

(** With [BaseInjectedProvider.switchChain] as it stands in the base
    class, the adapter's [switchChain] rejects whenever a provider exists,
    and the stored chain configuration stays. *)
Lemma switchChain_without_override base sub id init s p :
  switchChain_override sub = BaseInjectedProvider_switchChain ->
  checkSwitchChainRequirements base id init (status s) = None ->
  demonProvider s = Some p ->
  switchChain base sub id init s
  = mkRun (inl (WalletLoginError.unsupportedOperation
                  "Chain switching is not supported by this adapter")) s [].
Proof.
  destruct s as [st wl dp cc kc rh hp em]. simpl. intros Ho Hc ->.
  unfold_ops. simpl. rewrite Hc, Ho. reflexivity.
Qed.




(** One firing of the current wallet's notification, and a second one. *)
Lemma fire_twice s r w :
  status s = CONNECTED ->
  _wallet s = Some r ->
  heap s !! r = Some w ->
  disconnectListeners w = 1 ->
  let once := fire_disconnect r s in
  outcome once = inr () /\
  status (final once) = READY /\
  emitted (final once) = (emitted s ++ [EvDISCONNECTED])%list /\
  fire_disconnect r (final once) = mkRun (inr ()) (final once) [].
Proof.
  destruct s as [st wl dp cc kc rh hp em], w as [ec ed nw cn pk n]; simpl.
  intros -> -> Hw ->.
  unfold fire_disconnect, bind, get; simpl. rewrite Hw. simpl.
  unfold_ops; simpl.
  repeat split.
  rewrite list_lookup_alter_eq, Hw. reflexivity.
Qed.

(** C4: in every state the adapter can be in between calls with status
    CONNECTED, the wallet it holds firing "disconnect" takes it to READY
    and adds exactly one DISCONNECTED event to the log; the handler has
    then been unregistered, so a second firing in a row changes nothing
    and emits nothing. *)
Theorem external_disconnect_once base sub (c : option CustomChainConfig)
    (calls : list Call) :
  let s := after_calls base sub calls (new_DemonAdapter c) in
  status s = CONNECTED ->
  exists r,
    _wallet s = Some r /\
    let once := fire_disconnect r s in
    let twice := fire_disconnect r (final once) in
    outcome once = inr () /\
    status (final once) = READY /\
    emitted (final once) = (emitted s ++ [EvDISCONNECTED])%list /\
    twice = mkRun (inr ()) (final once) [] /\
    countDisconnected (emitted (final twice))
    = S (countDisconnected (emitted s)).
Proof.
  intros s Hst.
  destruct (after_calls_invariant base sub calls (new_DemonAdapter c)
              (new_DemonAdapter_invariant c) Hst)
    as (_ & r & w & Hr & Hw & Hl).
  exists r. split; [exact Hr|].
  destruct (fire_twice s r w Hst Hr Hw Hl) as (H1 & H2 & H3 & H4).
  cbv zeta. rewrite H4. simpl. repeat split; try done.
  rewrite H3. unfold countDisconnected.
  rewrite filter_app, length_app. simpl. lia.
Qed.

(** The outcome of [connect] by chain id, once the entry check passes. *)
Lemma connect_by_chain base sub ext s :
  checkConnectionRequirements base (status s) = None ->
  match connect base sub ext s with
  | mkRun o s' _ =>
      let id := chainId <$> chainConfig s in
      (id <> Some "0x1" -> id <> Some "0x2" -> id <> Some "0x3" ->
       o = inl (WalletLoginError.connectionError
                  "Invalid chainId, demon doesn't support custom solana networks") /\
       status s' = READY /\ heap s' = heap s) /\
      (id = Some "0x1" ->
       network <$> heap s' !! length (heap s) = Some mainnet_beta) /\
      (id = Some "0x2" ->
       network <$> heap s' !! length (heap s) = Some devnet) /\
      (id = Some "0x3" ->
       network <$> heap s' !! length (heap s) = Some testnet)
  end.
Proof.
  destruct s as [st wl dp cc kc rh hp em], ext as [fc fpk wc wd].
  intros Hc. simpl in Hc. unfold_ops. simpl. rewrite Hc.
  run; repeat split; intros; simpl in *; congruence.
Qed.

(** C5, as the code has it: with the entry check passed, a chain id
    other than "0x1", "0x2" and "0x3" (or no chain configuration at all)
    makes [connect] reject with the connection error "Invalid chainId,
    demon doesn't support custom solana networks", before any wallet is
    created and with status READY afterwards; for "0x1", "0x2" and "0x3"
    the wallet is created for mainnet-beta, devnet and testnet. *)
Theorem unsupported_chain_is_connection_error base sub ext s :
  checkConnectionRequirements base (status s) = None ->
  let id := chainId <$> chainConfig s in
  let r := connect base sub ext s in
  (id ∉ [Some "0x1"; Some "0x2"; Some "0x3"] ->
   outcome r = inl (WalletLoginError.connectionError
                "Invalid chainId, demon doesn't support custom solana networks") /\
   status (final r) = READY /\ heap (final r) = heap s) /\
  (id = Some "0x1" ->
   network <$> heap (final r) !! length (heap s) = Some mainnet_beta) /\
  (id = Some "0x2" ->
   network <$> heap (final r) !! length (heap s) = Some devnet) /\
  (id = Some "0x3" ->
   network <$> heap (final r) !! length (heap s) = Some testnet).
Proof.
  intros Hc id r. subst id r.
  pose proof (connect_by_chain base sub ext s Hc) as H.
  destruct (connect base sub ext s) as [o s' seen]; simpl in *.
  destruct H as (H0 & H1 & H2 & H3).
  split; [| by repeat split].
  intros Hout.
  apply H0; intros E; apply Hout; rewrite E; rewrite !elem_of_cons; auto.
Qed.

(** The ways [disconnect] ends. *)
Lemma disconnect_cases base cleanup s :
  match disconnect base cleanup s with
  | mkRun o s' seen =>
      match disconnectSession base (status s) with
      | Some e => o = inl e /\ s' = s /\ seen = []
      | None =>
          o = inr () /\
          emitted s'
          = (emitted s ++
             [match teardownError base cleanup s with
              | Some e =>
                  EvERRORED (WalletLoginError.disconnectionError
                               (err_message e))
              | None => EvDISCONNECTED
              end])%list
      end
  end.
Proof.
  destruct s as [st wl dp cc kc rh hp em].
  unfold teardownError, walletDisconnectError.
  unfold_ops. destruct cleanup; run; repeat split; eauto.
Qed.

(** C6, as the code has it: an error of the wallet's [disconnect()] or
    of the inherited [disconnect()], both inside the [try], does not
    reach the caller: the promise resolves and the one event the log
    gains is ERRORED carrying a disconnection error with the message of
    that error; without such an error the one event is DISCONNECTED.
    The inherited [disconnectSession()] is awaited before the [try]:
    when it throws, [disconnect] rejects with that error and nothing
    else happens. *)
Theorem disconnect_reports base cleanup s :
  let r := disconnect base cleanup s in
  match disconnectSession base (status s) with
  | Some e => outcome r = inl e /\ final r = s /\ visited r = []
  | None =>
      outcome r = inr () /\
      emitted (final r)
      = (emitted s ++
         [match teardownError base cleanup s with
          | Some e =>
              EvERRORED (WalletLoginError.disconnectionError (err_message e))
          | None => EvDISCONNECTED
          end])%list
  end.
Proof.
  intros r. subst r.
  pose proof (disconnect_cases base cleanup s) as H.
  destruct (disconnect base cleanup s) as [o s' seen]. exact H.
Qed.

End Facts.

Import Scenario.

(** C1, as stated, fails: on the way through a first [connect] the adapter
    is CONNECTED, and emits the CONNECTED event, while [_wallet] is still
    absent. *)
Lemma connected_before_wallet_is_stored :
  ~ Forall connectedHoldsBoth (visited (firstConnect mainnet)).
Proof.
  intros H.
  assert (Hi : visited (firstConnect mainnet) !! 5
               = Some (set_status CONNECTED
                         (set_demonProvider
                            (Some (setupProvider demonSubclass
                                     (new_DemonInjectedProvider (Some mainnet)) 0))
                            (set_heap
                               [wallet_connected (Some "PublicKey")
                                  (new_DemonWalletAdapter grants mainnet_beta)]
                               (push_event (EvCONNECTING "DEMON")
                                  (set_status CONNECTING (initialised mainnet)))))))
    by reflexivity.
  destruct (Forall_lookup_1 _ _ _ _ H Hi eq_refl) as [[r Hr] _].
  discriminate Hr.
Qed.

Lemma connected_holds_both_between_calls_witness :
  connectedHoldsBoth
    (after_calls specBase demonSubclass
       [CallInit grants false; CallConnect grants]
       (new_DemonAdapter (Some mainnet))) /\
  holdsBoth (final (connect specBase demonSubclass grants (initialised mainnet))).
Proof.
  destruct (connected_holds_both_between_calls specBase demonSubclass
              (Some mainnet) [CallInit grants false; CallConnect grants]
              grants (initialised mainnet))
    as (Hb & _ & Hr).
  split; [exact Hb|].
  exact (proj2 (Hr _ ltac:(vm_compute; reflexivity))).
Defined.

(** The second [connect] of the scenario: refused with a precondition
    error, READY afterwards, the wallet of the first call still held,
    connected and listening. *)
Lemma second_connect_drops_connected_witness :
  let s := connectedOnce mainnet in
  let r := connect specBase demonSubclass grants s in
  status s = CONNECTED /\
  (exists e, outcome r = inl e /\ err_class e = PreconditionError) /\
  _wallet (final r) = _wallet s /\
  demonProvider (final r) = demonProvider s /\
  status (final r) = READY /\
  exists w, heap (final r) !! 0 = Some w /\
            connected w = true /\ disconnectListeners w = 1.
Proof.
  destruct (second_connect_drops_connected specBase demonSubclass grants
              (connectedOnce mainnet)
              (mkError PreconditionError "connect requires READY")
              eq_refl eq_refl)
    as (Ho & Hw & Hp & Hh & Hs & _).
  cbv zeta. split; [reflexivity|].
  split; [eexists; split; [exact Ho | reflexivity]|].
  split; [exact Hw|]. split; [exact Hp|]. split; [exact Hs|].
  rewrite Hh. eexists. split; [reflexivity|]. split; reflexivity.
Defined.



Lemma external_disconnect_once_witness :
  let s := after_calls specBase demonSubclass
             [CallInit grants false; CallConnect grants]
             (new_DemonAdapter (Some mainnet)) in
  exists r,
    _wallet s = Some r /\
    status (final (fire_disconnect r s)) = READY.
Proof.
  intros s.
  destruct (external_disconnect_once specBase demonSubclass (Some mainnet)
              [CallInit grants false; CallConnect grants]
              ltac:(vm_compute; reflexivity))
    as (r & Hr & _ & Hs & _).
  exists r. split; [exact Hr | exact Hs].
Defined.

(** The second firing is idle because the handler is no longer
    registered: the handler itself, run once more, would go on to
    NOT_READY and emit again. *)
Example handler_run_again_is_not_idle :
  let once := final (_onDisconnect (connectedOnce mainnet)) in
  let again := final (_onDisconnect once) in
  status once = READY /\ status again = NOT_READY /\
  countDisconnected (emitted again) = 2.
Proof. vm_compute. repeat split. Qed.

(** C5, as stated, fails: for chain id "0x4" the rejection is a
    connection error, not an error of a class of its own. *)
Lemma unsupported_chain_error_class :
  ~ exists e,
      outcome (connect specBase demonSubclass grants (initialised customConfig))
      = inl e /\
      err_class e = UnsupportedChainError.
Proof.
  intros (e & He & Hc).
  vm_compute in He. injection He as <-. discriminate Hc.
Qed.

Lemma unsupported_chain_is_connection_error_witness :
  outcome (connect specBase demonSubclass grants (initialised customConfig))
  = inl (WalletLoginError.connectionError
           "Invalid chainId, demon doesn't support custom solana networks") /\
  status (final (connect specBase demonSubclass grants (initialised customConfig)))
  = READY.
Proof.
  destruct (proj1 (unsupported_chain_is_connection_error
                     specBase demonSubclass grants (initialised customConfig)
                     eq_refl))
    as (Ho & Hs & _).
  - simpl. rewrite !elem_of_cons, elem_of_nil.
    intros [E|[E|[E|[]]]]; discriminate E.
  - split; [exact Ho | exact Hs].
Defined.

(** C6, as stated, fails: [disconnect] on an adapter that is not
    connected, under a base class whose session check refuses that,
    rejects. *)
Lemma disconnect_can_reject :
  outcome (disconnect strictBase false (initialised mainnet)) <> inr ().
Proof. vm_compute. discriminate. Qed.

End AdapterFacts.

(** * Further properties of the method router *)

Module RouterMore.
Import Router RouterFacts.

Section More.
Context {W : Type}.
Implicit Types (req : JRPCRequest) (res : JRPCResponse) (w : W).
Implicit Types (h : Handler W) (b : Binding W) (bs : list (Binding W)).

(** X1: whatever the bindings and the request, dispatch ends the request
    only with the value returned by the handler of the first binding of
    the requested name, run on the world as it was; when it passes the
    request on, no binding has that name and response and world are as
    they were; when it fails, the response is as it was. *)
Theorem dispatch_outcomes bs req res w :
  match dispatch bs req res w with
  | (Next, res', w') =>
      firstBinding bs (method req) = None /\ res' = res /\ w' = w
  | (Fail e, res', w') =>
      res' = res /\
      exists b, firstBinding bs (method req) = Some b /\
                match bindingHandler b with
                | Some h => h req w = (inl e, w')
                | None => w' = w /\ handlerNotProvided (method req) e
                end
  | (End, res', w') =>
      exists b h v,
        firstBinding bs (method req) = Some b /\
        bindingHandler b = Some h /\
        h req w = (inr v, w') /\
        res' = mkResponse (Some v)
  end.
Proof.
  destruct (firstBinding bs (method req)) as [b|] eqn:Hf.
  - rewrite (dispatch_first bs b) by done.
    pose proof (firstBinding_name _ _ _ Hf) as Hm.
    destruct (bindingHandler b) as [h|] eqn:Hh.
    + rewrite (binding_hit b h) by done. unfold awaitInto.
      destruct (h req w) as [[e|v] w'] eqn:E.
      * split; [done|]. exists b. by rewrite Hh.
      * by exists b, h, v.
    + destruct (binding_missing b req res w Hm Hh) as (e & -> & Hnp).
      split; [done|]. exists b. by rewrite Hh.
  - by rewrite dispatch_none.
Qed.

End More.
End RouterMore.

(** * Further properties of the adapter *)

Module AdapterMore.
Import Router RouterFacts Adapter AdapterFacts.

Lemma setupProvider_stack {W} (sub : ProviderSubclass W)
    (p : DemonInjectedProvider W) (r : nat) :
  provider (setupProvider sub p r)
  = Some (createSolanaMiddleware (getProviderHandlers sub r)
          :: createConfigMiddleware (config p)
          :: match getInjectedProviderProxy sub r with
             | Some proxy => [proxy]
             | None => []
             end).
Proof. reflexivity. Qed.

Local Opaque setupProvider.

Ltac settle_fully :=
  repeat (progress (simpl; rewrite ?alter_fresh, ?lookup_fresh)).

Ltac run_fully := settle_fully; repeat (stuck_step; settle_fully).

Ltac chain_cases H :=
  unfold supportedChain in H; simpl in H;
  rewrite !elem_of_cons, elem_of_nil in H.

Section More.
Context {W : Type}.
Implicit Types (s : DemonAdapter W) (base : BaseAdapter).
Implicit Types (sub : ProviderSubclass W) (ext : Extension).
Implicit Types (req : JRPCRequest).

(** X3: through the engine built by [setupProvider], a business method
    whose binding has a handler is answered by that handler and by
    nothing else; one whose handler is absent is rejected; and a method
    that is not bound is left to the pass-through stage when the subclass
    installs one, and otherwise nobody claims it. *)
Theorem setupProvider_serves sub (p : DemonInjectedProvider W) (r : nat)
    req (w : W) :
  exists engine,
    provider (setupProvider sub p r) = Some engine /\
    (forall b,
       firstBinding (solanaBindings (getProviderHandlers sub r)) (method req)
       = Some b ->
       match bindingHandler b with
       | Some h =>
           handle engine req w
           = match h req w with
             | (inr v, w') => (Answered (mkResponse (Some v)), w')
             | (inl e, w') => (Rejected e, w')
             end
       | None =>
           exists e, handle engine req w = (Rejected e, w) /\
                     handlerNotProvided (method req) e
       end) /\
    (method req ∉ boundMethods ->
     handle engine req w
     = match getInjectedProviderProxy sub r with
       | Some proxy => handle [proxy] req w
       | None => (Unclaimed, w)
       end).
Proof.
  eexists. split; [apply setupProvider_stack|]. split.
  - intros b Hf.
    pose proof (firstBinding_name _ _ _ Hf) as Hm.
    unfold handle. cbn [mergeMiddleware].
    rewrite createSolanaMiddleware_dispatch, (dispatch_first _ b) by done.
    destruct (bindingHandler b) as [h|] eqn:Hh.
    + rewrite (binding_hit b h) by done. unfold awaitInto.
      by destruct (h req w) as [[e|v] w'].
    + destruct (binding_missing b req (mkResponse None) w Hm Hh)
        as (e & -> & Hnp).
      by exists e.
  - intros Hn.
    unfold handle. cbn [mergeMiddleware].
    rewrite createSolanaMiddleware_dispatch, dispatch_none.
    2:{ apply firstBinding_unbound. rewrite solanaBindings_names.
        intros Hin. apply Hn. eapply subseteq_take, Hin. }
    rewrite config_other.
    2,3: intros E; apply Hn; rewrite E; unfold boundMethods;
      rewrite !elem_of_cons; auto 20.
    by destruct (getInjectedProviderProxy sub r).
Qed.

(** When [connect] resolves, and when it does not. *)
Lemma connect_resolves_cases base sub ext s :
  match connect base sub ext s with
  | mkRun o _ _ =>
      is_Some (match o with inr engine => Some engine | inl _ => None end) <->
      checkConnectionRequirements base (status s) = None /\
      supportedChain (chainConfig s) /\
      is_Some (demonProvider s) /\
      comesUpWithKey ext = true
  end.
Proof.
  destruct s as [st wl dp cc kc rh hp em].
  destruct ext as [[] [fpk|] [e0|[pk|]] wd];
    unfold comesUpWithKey; simpl;
    unfold_ops; run_fully;
    (split;
     [ intros [? Hx]; try discriminate Hx; repeat split; eauto;
       unfold supportedChain; simpl; rewrite ?elem_of_cons; auto
     | intros (Hc & Hs & [? Hp] & Hk); chain_cases Hs;
       try discriminate; try congruence; eauto;
       destruct Hs as [?|[?|[?|[]]]]; congruence ]).
Qed.

(** X4: [connect] resolves exactly when its entry check passes, the chain
    id is one of "0x1", "0x2", "0x3", the adapter has a provider, and the
    wallet is or becomes connected and shows a public key. *)
Theorem connect_resolves_iff base sub ext s :
  (exists engine, outcome (connect base sub ext s) = inr engine) <->
  checkConnectionRequirements base (status s) = None /\
  supportedChain (chainConfig s) /\
  is_Some (demonProvider s) /\
  comesUpWithKey ext = true.
Proof.
  pose proof (connect_resolves_cases base sub ext s) as H.
  destruct (connect base sub ext s) as [[e|engine] s' seen]; simpl;
    rewrite <- H; split.
  - intros [? [=]].
  - intros [? [=]].
  - eauto.
  - eauto.
Qed.

(** How [connect] leaves the event log and what it returns. *)
Lemma connect_ends base sub ext s :
  match connect base sub ext s with
  | mkRun (inl e) s' _ =>
      status s' = READY /\ rehydrated s' = false /\
      last (emitted s') = Some (EvERRORED e)
  | mkRun (inr engine) s' _ =>
      emitted s'
      = (emitted s ++ [EvCONNECTING "DEMON";
                       EvCONNECTED "DEMON" (rehydrated s)])%list /\
      rehydrated s' = rehydrated s /\
      engine = get_provider s' /\
      is_Some engine
  end.
Proof.
  destruct s as [st wl dp cc kc rh hp em], ext as [fc fpk wc wd].
  unfold_ops. run_fully;
    first
      [ solve [repeat split; apply last_snoc]
      | (split; [by rewrite <- app_assoc|]); repeat split;
        simpl; rewrite ?setupProvider_stack; eauto ].
Qed.

(** X5: a [connect] that rejects has set the status to READY, cleared the
    rehydration flag and, last of all, emitted ERRORED with the very error
    it rejects with. *)
Theorem connect_rejection_is_reported base sub ext s e :
  outcome (connect base sub ext s) = inl e ->
  status (final (connect base sub ext s)) = READY /\
  rehydrated (final (connect base sub ext s)) = false /\
  last (emitted (final (connect base sub ext s))) = Some (EvERRORED e).
Proof.
  pose proof (connect_ends base sub ext s) as H.
  destruct (connect base sub ext s) as [[e'|engine] s' seen]; simpl;
    intros [= <-]. exact H.
Qed.

(** X6: a [connect] that resolves has added exactly two events to the
    log, CONNECTING and then CONNECTED carrying the rehydration flag as
    [reconnected]; it leaves that flag as it was and returns the
    provider's engine, which is never absent. *)
Theorem connect_resolution_events base sub ext s engine :
  outcome (connect base sub ext s) = inr engine ->
  emitted (final (connect base sub ext s))
  = (emitted s ++ [EvCONNECTING "DEMON";
                   EvCONNECTED "DEMON" (rehydrated s)])%list /\
  rehydrated (final (connect base sub ext s)) = rehydrated s /\
  engine = get_provider (final (connect base sub ext s)) /\
  is_Some engine.
Proof.
  pose proof (connect_ends base sub ext s) as H.
  destruct (connect base sub ext s) as [[e'|engine'] s' seen]; simpl;
    intros [= <-]. exact H.
Qed.

Lemma wallet_refusal_cases base sub ext s e0 :
  checkConnectionRequirements base (status s) = None ->
  supportedChain (chainConfig s) ->
  found_connected ext = false ->
  will_connect ext = inl e0 ->
  match connect base sub ext s with
  | mkRun o s' _ =>
      let e := if instanceof_Web3AuthError e0 then e0
               else WalletLoginError.connectionError (err_message e0) in
      o = inl e /\
      status s' = READY /\
      _wallet s' = _wallet s /\
      demonProvider s' = demonProvider s /\
      emitted s' = (emitted s ++ [EvCONNECTING "DEMON"; EvERRORED e])%list
  end.
Proof.
  destruct s as [st wl dp cc kc rh hp em], ext as [fc fpk wc wd]. simpl.
  intros Hc Hs -> ->. chain_cases Hs.
  unfold_ops. simpl. rewrite Hc. run_fully;
    try (exfalso; destruct Hs as [?|[?|[?|[]]]]; congruence);
    repeat split; by rewrite <- app_assoc.
Qed.

(** X7: when the wallet's [connect()] throws, [connect] rejects with that
    error if it is a [Web3AuthError] and with a connection error of the
    same message otherwise; the adapter is READY again, its wallet and
    provider references are untouched, and the log has gained CONNECTING
    followed by ERRORED. *)
Theorem wallet_refusal_is_wrapped base sub ext s e0 :
  checkConnectionRequirements base (status s) = None ->
  supportedChain (chainConfig s) ->
  found_connected ext = false ->
  will_connect ext = inl e0 ->
  let r := connect base sub ext s in
  let e := if instanceof_Web3AuthError e0 then e0
           else WalletLoginError.connectionError (err_message e0) in
  outcome r = inl e /\
  status (final r) = READY /\
  _wallet (final r) = _wallet s /\
  demonProvider (final r) = demonProvider s /\
  emitted (final r) = (emitted s ++ [EvCONNECTING "DEMON"; EvERRORED e])%list.
Proof.
  intros Hc Hs Hf Hw r. subst r.
  pose proof (wallet_refusal_cases base sub ext s e0 Hc Hs Hf Hw) as H.
  destruct (connect base sub ext s) as [o s' seen]. exact H.
Qed.

Lemma keyless_cases base sub ext s p :
  checkConnectionRequirements base (status s) = None ->
  supportedChain (chainConfig s) ->
  demonProvider s = Some p ->
  found_connected ext = true \/ (exists pk, will_connect ext = inr pk) ->
  comesUpWithKey ext = false ->
  match connect base sub ext s with
  | mkRun o s' _ =>
      let e := WalletLoginError.connectionError "" in
      o = inl e /\
      status s' = READY /\
      _wallet s' = Some (length (heap s)) /\
      demonProvider s' = Some (setupProvider sub p (length (heap s))) /\
      disconnectListeners <$> heap s' !! length (heap s) = Some 0 /\
      emitted s'
      = (emitted s ++ [EvCONNECTING "DEMON";
                       EvCONNECTED "DEMON" (rehydrated s);
                       EvERRORED e])%list
  end.
Proof.
  destruct s as [st wl dp cc kc rh hp em]. simpl.
  intros Hc Hs -> Hup Hk. chain_cases Hs.
  destruct ext as [[] [fpk|] [e0|[pk|]] wd];
    unfold comesUpWithKey in Hk; simpl in Hup, Hk; try discriminate Hk;
    try (exfalso; destruct Hup as [?|[? ?]]; discriminate);
    unfold_ops; simpl; rewrite Hc; run_fully;
    try (exfalso; destruct Hs as [?|[?|[?|[]]]]; congruence);
    repeat split; by rewrite <- !app_assoc.
Qed.

(** X8: when the wallet is connected but shows no public key, [connect]
    rejects with an empty connection error only after the adapter has
    been set up as connected: CONNECTED is emitted before ERRORED, and
    although the status is READY again the adapter keeps the reference to
    the new wallet and the provider set up for it; the handler for the
    wallet's notification has not been registered. *)
Theorem missing_publicKey_is_detected_late base sub ext s p :
  checkConnectionRequirements base (status s) = None ->
  supportedChain (chainConfig s) ->
  demonProvider s = Some p ->
  found_connected ext = true \/ (exists pk, will_connect ext = inr pk) ->
  comesUpWithKey ext = false ->
  let r := connect base sub ext s in
  let e := WalletLoginError.connectionError "" in
  outcome r = inl e /\
  status (final r) = READY /\
  _wallet (final r) = Some (length (heap s)) /\
  demonProvider (final r) = Some (setupProvider sub p (length (heap s))) /\
  disconnectListeners <$> heap (final r) !! length (heap s) = Some 0 /\
  emitted (final r)
  = (emitted s ++ [EvCONNECTING "DEMON";
                   EvCONNECTED "DEMON" (rehydrated s);
                   EvERRORED e])%list.
Proof.
  intros Hc Hs Hp Hup Hk r. subst r.
  pose proof (keyless_cases base sub ext s p Hc Hs Hp Hup Hk) as H.
  destruct (connect base sub ext s) as [o s' seen]. exact H.
Qed.

Lemma no_provider_cases base sub ext s :
  demonProvider s = None ->
  match connect base sub ext s with
  | mkRun o s' _ =>
      (exists e, o = inl e) /\
      status s' = READY /\
      demonProvider s' = None /\
      _wallet s' = _wallet s /\
      (checkConnectionRequirements base (status s) = None ->
       supportedChain (chainConfig s) ->
       found_connected ext = true \/ (exists pk, will_connect ext = inr pk) ->
       o = inl (WalletLoginError.connectionError "No demon provider") /\
       length (heap s') = S (length (heap s)))
  end.
Proof.
  destruct s as [st wl dp cc kc rh hp em]. simpl. intros ->.
  destruct ext as [[] fpk [e0|pk] wd];
    unfold_ops; run_fully;
    (split; [eauto|]); do 3 (split; [reflexivity|]);
    intros Hc Hs Hup; chain_cases Hs;
    try congruence;
    try (exfalso; destruct Hs as [?|[?|[?|[]]]]; congruence);
    try (exfalso; destruct Hup as [?|[? ?]]; discriminate);
    (split; [reflexivity | rewrite length_app; simpl; lia]).
Qed.

(** X9: without a provider, that is, before [init] or after a
    [disconnect] with cleanup, [connect] never resolves: it rejects, ends
    READY and leaves [_wallet] as it was.  When the entry check and the
    chain id let it through and the wallet comes up, the error is the
    connection error "No demon provider", and a wallet object has been
    created all the same. *)
Theorem connect_needs_a_provider base sub ext s :
  demonProvider s = None ->
  let r := connect base sub ext s in
  (exists e, outcome r = inl e) /\
  status (final r) = READY /\
  demonProvider (final r) = None /\
  _wallet (final r) = _wallet s /\
  (checkConnectionRequirements base (status s) = None ->
   supportedChain (chainConfig s) ->
   found_connected ext = true \/ (exists pk, will_connect ext = inr pk) ->
   outcome r = inl (WalletLoginError.connectionError "No demon provider") /\
   length (heap (final r)) = S (length (heap s))).
Proof.
  intros Hp r. subst r.
  pose proof (no_provider_cases base sub ext s Hp) as H.
  destruct (connect base sub ext s) as [o s' seen]. exact H.
Qed.


(** *** [disconnect] *)

Lemma disconnect_clean_cases base cleanup s :
  disconnectSession base (status s) = None ->
  (forall r w, _wallet s = Some r -> heap s !! r = Some w ->
               ext_disconnect w = None) ->
  (forall st, super_disconnect base st = None) ->
  match disconnect base cleanup s with
  | mkRun o s' _ =>
      o = inr () /\
      status s' = (if cleanup then NOT_READY else READY) /\
      _wallet s' = (if cleanup then None else _wallet s) /\
      demonProvider s' = (if cleanup then None else demonProvider s) /\
      chainConfig s' = chainConfig s /\
      rehydrated s' = false /\
      emitted s' = (emitted s ++ [EvDISCONNECTED])%list /\
      (forall r, _wallet s = Some r -> is_Some (heap s !! r) ->
                 heap s' = alter wallet_disconnected r (heap s))
  end.
Proof.
  destruct s as [st wl dp cc kc rh hp em]. simpl. intros Hd Hw Hsd.
  unfold_ops. simpl. rewrite Hd.
  destruct wl as [r|]; [destruct (hp !! r) as [w|] eqn:E|].
  - specialize (Hw r w eq_refl E).
    destruct cleanup; repeat (simpl; rewrite ?E, ?Hw, ?Hsd);
      repeat (split; [reflexivity|]); by intros r0 [= <-] _.
  - destruct cleanup; repeat (simpl; rewrite ?E, ?Hsd);
      repeat (split; [reflexivity|]);
      intros r0 [= <-] [? Hx]; rewrite E in Hx; discriminate Hx.
  - destruct cleanup; repeat (simpl; rewrite ?Hsd);
      repeat (split; [reflexivity|]); by intros r0 [=].
Qed.

(** X10: when the session check passes and neither the wallet's
    [disconnect()] nor the inherited [disconnect()] throws, [disconnect]
    resolves, clears the rehydration flag and emits DISCONNECTED once.
    With cleanup it ends NOT_READY with both references cleared; without,
    it ends READY and keeps both the provider and the reference to the
    wallet it has just disconnected. *)
Theorem disconnect_by_cleanup base cleanup s :
  disconnectSession base (status s) = None ->
  (forall r w, _wallet s = Some r -> heap s !! r = Some w ->
               ext_disconnect w = None) ->
  (forall st, super_disconnect base st = None) ->
  let r := disconnect base cleanup s in
  outcome r = inr () /\
  status (final r) = (if cleanup then NOT_READY else READY) /\
  _wallet (final r) = (if cleanup then None else _wallet s) /\
  demonProvider (final r) = (if cleanup then None else demonProvider s) /\
  chainConfig (final r) = chainConfig s /\
  rehydrated (final r) = false /\
  emitted (final r) = (emitted s ++ [EvDISCONNECTED])%list.
Proof.
  intros Hd Hw Hsd r. subst r.
  pose proof (disconnect_clean_cases base cleanup s Hd Hw Hsd) as H.
  destruct (disconnect base cleanup s) as [o s' seen].
  destruct H as (?&?&?&?&?&?&?&_). done.
Qed.

(** X11: when the wallet's [disconnect()] throws, [disconnect] resolves
    all the same and the teardown has not happened: with or without
    cleanup, status and references are what they were, and the one thing
    that has changed is the log, by an ERRORED event carrying a
    disconnection error with the wallet's message. *)
Theorem failed_teardown_keeps_state base cleanup s (r : nat)
    (w : DemonWalletAdapter) e0 :
  disconnectSession base (status s) = None ->
  _wallet s = Some r ->
  heap s !! r = Some w ->
  ext_disconnect w = Some e0 ->
  let reported :=
    push_event
      (EvERRORED (WalletLoginError.disconnectionError (err_message e0))) s in
  disconnect base cleanup s = mkRun (inr ()) reported [reported].
Proof.
  destruct s as [st wl dp cc kc rh hp em]. simpl. intros Hd -> Hw He.
  unfold_ops. simpl. rewrite Hd. simpl. rewrite Hw. simpl. rewrite He.
  reflexivity.
Qed.

(** What a resolved [connect] leaves on the heap. *)
Lemma connect_wallet_cases base sub ext s :
  match connect base sub ext s with
  | mkRun (inr _) s' _ =>
      exists w, heap s' = (heap s ++ [w])%list /\
                ext_disconnect w = will_disconnect ext /\
                connected w = true /\
                disconnectListeners w = 1
  | mkRun (inl _) _ _ => True
  end.
Proof.
  destruct s as [st wl dp cc kc rh hp em], ext as [[] fpk wc wd].
  all: unfold_ops; run_fully; try exact I; eexists; repeat split.
Qed.

(** X12: after a [connect] that resolved and a [disconnect] without
    cleanup that went through, a further [connect] resolves without any
    [init] in between, given only that the entry check admits READY and
    the wallet comes up with a public key.  It works on a new wallet
    object; the first one is still around with [_onDisconnect]
    registered, since [disconnect] does not unregister it. *)
Theorem reconnect_after_disconnect base sub ext ext' s engine :
  outcome (connect base sub ext s) = inr engine ->
  will_disconnect ext = None ->
  disconnectSession base CONNECTED = None ->
  (forall st, super_disconnect base st = None) ->
  checkConnectionRequirements base READY = None ->
  comesUpWithKey ext' = true ->
  let s1 := final (connect base sub ext s) in
  let s2 := final (disconnect base false s1) in
  let r3 := connect base sub ext' s2 in
  status s2 = READY /\
  (exists engine', outcome r3 = inr engine') /\
  status (final r3) = CONNECTED /\
  _wallet (final r3) = Some (S (length (heap s))) /\
  disconnectListeners <$> heap (final r3) !! length (heap s) = Some 1.
Proof.
  intros Ho Hwd Hds Hsd Hcr Hk s1 s2 r3.
  assert (Hiff : checkConnectionRequirements base (status s) = None /\
                 supportedChain (chainConfig s) /\
                 is_Some (demonProvider s) /\
                 comesUpWithKey ext = true).
  { pose proof (connect_resolves_cases base sub ext s) as H.
    destruct (connect base sub ext s) as [[e|en] s' seen]; simpl in Ho;
      [discriminate|]. apply H. eauto. }
  destruct Hiff as (_ & Hchain & _ & _).
  destruct (connect_resolved base sub ext s engine Ho)
    as (Hst & Hw & Hcc & (p & _ & Hp & _) & _).
  pose proof (connect_wallet_cases base sub ext s) as Hheap.
  fold s1 in Hst, Hw, Hcc, Hp. subst r3 s2.
  destruct (connect base sub ext s) as [[e|en] s1' seen]; simpl in Ho;
    [discriminate|]. simpl in s1. subst s1.
  destruct Hheap as (w & Hh & Hed & _ & Hl).
  assert (Hlook : heap s1' !! length (heap s) = Some w)
    by (rewrite Hh; apply lookup_fresh).
  pose proof (disconnect_clean_cases base false s1') as Hd.
  rewrite Hst in Hd. specialize (Hd Hds).
  destruct (disconnect base false s1') as [o2 s2 seen2]. simpl.
  destruct Hd as (_ & Hst2 & Hw2 & Hp2 & Hcc2 & _ & _ & Hh2).
  { intros r w0. rewrite Hw. intros [= <-]. rewrite Hlook.
    intros [= <-]. by rewrite Hed. }
  { exact Hsd. }
  specialize (Hh2 _ Hw (mk_is_Some _ _ Hlook)).
  rewrite Hh, alter_fresh in Hh2.
  pose proof (connect_resolves_cases base sub ext' s2) as Hiff.
  pose proof (connect_cases base sub ext' s2) as Hc3.
  destruct (connect base sub ext' s2) as [[e3|en3] s3 seen3]; simpl in *.
  - exfalso. destruct Hiff as [_ Hiff].
    destruct Hiff as [? [=]].
    rewrite Hst2, Hcc2, Hcc, Hp2, Hp. eauto.
  - destruct Hc3 as (Hst3 & Hw3 & _ & _ & (w3 & Hh3 & _)).
    split; [done|]. split; [eauto|]. split; [done|]. split.
    + rewrite Hw3, Hh2, length_app. simpl. f_equal. lia.
    + rewrite Hh3, Hh2.
      rewrite lookup_app_l by (rewrite length_app; simpl; lia).
      rewrite lookup_fresh. simpl. by rewrite Hl.
Qed.

(** *** The wallet's notification *)

Lemma _onDisconnect_without_wallet s :
  _wallet s = None -> _onDisconnect s = mkRun (inr ()) s [].
Proof. destruct s as [st wl dp cc kc rh hp em]. simpl. by intros ->. Qed.

Lemma call_listeners_without_wallet n s :
  _wallet s = None -> call_listeners n s = mkRun (inr ()) s [].
Proof.
  intros Hw. induction n as [|n IH]; simpl; [reflexivity|].
  unfold bind. rewrite _onDisconnect_without_wallet by done.
  by rewrite IH.
Qed.

(** X13: while the adapter holds no wallet, that is, before the first
    [connect] has stored one or after a [disconnect] with cleanup, a
    "disconnect" notification from any wallet object, however often the
    handler is registered on it, changes nothing and emits nothing. *)
Theorem notification_without_wallet (r : nat) s :
  _wallet s = None ->
  fire_disconnect r s = mkRun (inr ()) s [].
Proof.
  intros Hw. unfold fire_disconnect, bind, get; simpl.
  destruct (heap s !! r) as [w|]; [|reflexivity].
  by rewrite call_listeners_without_wallet.
Qed.

(** X14: when a wallet on which the handler is registered fires while
    the adapter holds a wallet, the handler unregisters itself from the
    wallet the adapter holds, which need not be the one that fired, and
    the reference to it is kept.  The status becomes READY if it was
    CONNECTED and NOT_READY from any other status, the rehydration flag is
    cleared and DISCONNECTED is emitted. *)
Theorem notification_unregisters_held_wallet (fired held : nat)
    (w : DemonWalletAdapter) s :
  heap s !! fired = Some w ->
  disconnectListeners w = 1 ->
  _wallet s = Some held ->
  let s' := final (fire_disconnect fired s) in
  status s' = (if decide (status s = CONNECTED) then READY else NOT_READY) /\
  rehydrated s' = false /\
  emitted s' = (emitted s ++ [EvDISCONNECTED])%list /\
  _wallet s' = Some held /\
  heap s' = alter wallet_off held (heap s) /\
  (held <> fired -> heap s' !! fired = Some w).
Proof.
  destruct s as [st wl dp cc kc rh hp em], w as [ec ed nw cn pk n]. simpl.
  intros Hw -> ->.
  unfold fire_disconnect, bind, get; simpl. rewrite Hw. simpl.
  unfold_ops; simpl.
  repeat split.
  intros Hne. by rewrite list_lookup_alter_ne.
Qed.

(** *** [switchChain], [getUserInfo], [init] *)

(** X15: [switchChain] gives up before touching anything when its entry
    check throws or when the provider's [switchChain] rejects: it rejects
    with that very error, the stored chain configuration and the provider
    are what they were and nothing is emitted.  The [switchChain] that
    [BaseInjectedProvider] itself defines always rejects, with an
    unsupported-operation error. *)
Theorem switchChain_rejection_keeps_config base sub (id : string)
    (init : bool) s :
  (forall e,
     checkSwitchChainRequirements base id init (status s) = Some e ->
     switchChain base sub id init s = mkRun (inl e) s []) /\
  (checkSwitchChainRequirements base id init (status s) = None ->
   forall (p : DemonInjectedProvider W) e,
     demonProvider s = Some p ->
     switchChain_override sub p id = inl e ->
     switchChain base sub id init s = mkRun (inl e) s []) /\
  (forall p : DemonInjectedProvider W,
     BaseInjectedProvider_switchChain p id
     = inl (WalletLoginError.unsupportedOperation
              "Chain switching is not supported by this adapter")).
Proof.
  destruct s as [st wl dp cc kc rh hp em]. simpl.
  split; [| split].
  - intros e Hc. unfold_ops. simpl. by rewrite Hc.
  - intros Hc p e -> Ho. unfold_ops. simpl. rewrite Hc. simpl.
    by rewrite Ho.
  - reflexivity.
Qed.

(** X16: [getUserInfo] never changes the adapter.  It rejects with the
    not-connected error whenever the status is not CONNECTED or no wallet
    is held, and when it resolves the status is CONNECTED and the wallet
    held reports itself connected. *)
Theorem getUserInfo_requires_connection s :
  final (getUserInfo s) = s /\
  visited (getUserInfo s) = [] /\
  (status s <> CONNECTED \/ _wallet s = None ->
   outcome (getUserInfo s)
   = inl (WalletLoginError.notConnectedError notConnectedMessage)) /\
  (outcome (getUserInfo s) = inr () ->
   status s = CONNECTED /\
   exists (r : nat) (wal : DemonWalletAdapter),
     _wallet s = Some r /\ heap s !! r = Some wal /\ connected wal = true).
Proof.
  destruct s as [st wl dp cc kc rh hp em].
  unfold getUserInfo, isWalletConnected, bind, get, throw, ret; simpl.
  destruct wl as [r|]; [destruct (hp !! r) as [wal|] eqn:E|]; simpl.
  - destruct (connected wal) eqn:Hc; simpl;
      [case_bool_decide as Hst|]; simpl; repeat split;
      try discriminate; try (intros [?|?]; congruence); eauto.
  - repeat split; done.
  - repeat split; done.
Qed.

Lemma connect_keeps_provider base sub ext s :
  is_Some (demonProvider s) ->
  is_Some (demonProvider (final (connect base sub ext s))).
Proof.
  assert (H : match connect base sub ext s with
              | mkRun _ s' _ =>
                  is_Some (demonProvider s) -> is_Some (demonProvider s')
              end).
  { destruct s as [st wl dp cc kc rh hp em], ext as [fc fpk wc wd].
    unfold_ops. run_fully; simpl; eauto. }
  destruct (connect base sub ext s) as [o s' seen]. exact H.
Qed.

(** What the inherited [init] leaves. *)
Lemma BaseSolanaAdapter_init_final base s :
  final (BaseSolanaAdapter_init base s)
  = match chainConfig s with
    | Some _ => s
    | None => set_chainConfig (Some (defaultChainConfig base)) s
    end.
Proof.
  unfold BaseSolanaAdapter_init, bind, get; simpl.
  destruct (chainConfig s); reflexivity.
Qed.

(** The state in which [init] calls [connect], and what it makes of the
    result. *)
Lemma init_auto_run base sub ext s :
  checkInitializationRequirements base (status s) = None ->
  match init base sub ext true s with
  | mkRun o sf _ =>
      match connect base sub ext
              (set_rehydrated true
                 (push_event (EvREADY "DEMON")
                    (set_status READY
                       (set_demonProvider
                          (Some (new_DemonInjectedProvider
                                   (chainConfig
                                      (final (BaseSolanaAdapter_init base s)))))
                          (final (BaseSolanaAdapter_init base s)))))) with
      | mkRun (inl e) s' _ =>
          o = inr () /\ sf = push_event (EvNamed "ERRORED" e) s'
      | mkRun (inr _) s' _ => o = inr () /\ sf = s'
      end
  end.
Proof.
  intros Hi.
  destruct (BaseSolanaAdapter_init_fields base s) as (Hst & _).
  cbv zeta in Hst. rewrite <- Hst in Hi.
  pose proof (construct_after_inherited_init base sub s) as Hn.
  unfold init. unfold bind at 1.
  destruct (BaseSolanaAdapter_init_run base s) as (seen0 & -> & _).
  revert Hi Hn. generalize (final (BaseSolanaAdapter_init base s)).
  intros s0 Hi Hn.
  unfold bind, get, check, write, emit, try_catch, ret.
  simpl. rewrite Hi. simpl. rewrite Hn. simpl.
  destruct (connect base sub ext _) as [[e|en] s' seen]; simpl; done.
Qed.

Lemma init_auto_shape base sub ext s :
  checkInitializationRequirements base (status s) = None ->
  let s0 := final (BaseSolanaAdapter_init base s) in
  let s4 :=
    set_rehydrated true
      (push_event (EvREADY "DEMON")
         (set_status READY
            (set_demonProvider
               (Some (new_DemonInjectedProvider (chainConfig s0))) s0))) in
  match connect base sub ext s4 with
  | mkRun (inl e) s' _ =>
      outcome (init base sub ext true s) = inr () /\
      final (init base sub ext true s) = push_event (EvNamed "ERRORED" e) s'
  | mkRun (inr _) s' _ =>
      outcome (init base sub ext true s) = inr () /\
      final (init base sub ext true s) = s'
  end.
Proof.
  intros Hi s0 s4. subst s0 s4.
  pose proof (init_auto_run base sub ext s Hi) as H.
  destruct (init base sub ext true s) as [o sf seen]. exact H.
Qed.

Lemma init_plain_run base sub ext s :
  checkInitializationRequirements base (status s) = None ->
  let s0 := final (BaseSolanaAdapter_init base s) in
  let s1 := set_demonProvider
              (Some (new_DemonInjectedProvider (chainConfig s0))) s0 in
  let s2 := set_status READY s1 in
  let s3 := push_event (EvREADY "DEMON") s2 in
  init base sub ext false s
  = mkRun (inr ()) s3
      (visited (BaseSolanaAdapter_init base s) ++ [s1; s2; s3])%list.
Proof.
  intros Hi. cbv zeta.
  destruct (BaseSolanaAdapter_init_fields base s) as (Hst & _).
  cbv zeta in Hst. rewrite <- Hst in Hi.
  pose proof (construct_after_inherited_init base sub s) as Hn.
  unfold init. unfold bind at 1.
  destruct (BaseSolanaAdapter_init_run base s) as (seen0 & E & _).
  destruct (BaseSolanaAdapter_init base s) as [o0 s0 v0].
  simpl in *. injection E as -> ->.
  unfold bind, get, check, write, emit, try_catch, ret.
  simpl. rewrite Hi. simpl. rewrite Hn. reflexivity.
Qed.

Lemma init_refused base sub ext autoConnect s e :
  checkInitializationRequirements base (status s) = Some e ->
  init base sub ext autoConnect s
  = mkRun (inl e) (final (BaseSolanaAdapter_init base s))
      (visited (BaseSolanaAdapter_init base s)).
Proof.
  intros Hi.
  destruct (BaseSolanaAdapter_init_fields base s) as (Hst & _).
  cbv zeta in Hst. rewrite <- Hst in Hi.
  unfold init. unfold bind at 1.
  destruct (BaseSolanaAdapter_init_run base s) as (seen0 & E & _).
  destruct (BaseSolanaAdapter_init base s) as [o0 s0 v0].
  simpl in *. injection E as -> ->.
  unfold bind at 1 2, get, check, throw. simpl. rewrite Hi.
  by rewrite app_nil_r.
Qed.

Lemma init_plain_cases base sub ext autoConnect s :
  let s0 := final (BaseSolanaAdapter_init base s) in
  match checkInitializationRequirements base (status s) with
  | Some e =>
      init base sub ext autoConnect s
      = mkRun (inl e) s0 (visited (BaseSolanaAdapter_init base s))
  | None =>
      outcome (init base sub ext autoConnect s) = inr () /\
      is_Some (demonProvider (final (init base sub ext autoConnect s))) /\
      (status (final (init base sub ext autoConnect s)) = READY \/
       autoConnect = true /\
       status (final (init base sub ext autoConnect s)) = CONNECTED) /\
      (autoConnect = false ->
       final (init base sub ext autoConnect s)
       = push_event (EvREADY "DEMON")
           (set_status READY
              (set_demonProvider
                 (Some (new_DemonInjectedProvider (chainConfig s0))) s0)))
  end.
Proof.
  intros s0. subst s0.
  destruct (checkInitializationRequirements base (status s)) as [e|] eqn:Hi.
  - by apply init_refused.
  - destruct autoConnect.
    + pose proof (init_auto_shape base sub ext s Hi) as H. cbv zeta in H.
      match type of H with context [connect base sub ext ?s4] =>
        pose proof (connect_cases base sub ext s4) as Hc;
        pose proof (connect_keeps_provider base sub ext s4) as Hp;
        destruct (connect base sub ext s4) as [[e|en] s' seen]
      end; simpl in *; destruct H as [-> ->].
      * repeat split; [apply Hp; eauto | by left | done].
      * destruct Hc as (Hst & _).
        repeat split; [apply Hp; eauto | by right | done].
    + rewrite (init_plain_run base sub ext s Hi). simpl.
      repeat split; eauto.
Qed.

(** X17: [init] starts with the inherited [init], which gives an adapter
    without a chain configuration the default one and changes nothing
    else.  After that [init] rejects only when the initialisation check
    throws, and then nothing further has been touched.  Once the check
    passes it resolves whatever happens to an auto-connect, with a
    provider in place, ending READY, or CONNECTED when an auto-connect
    went through; without auto-connect the provider is a fresh one
    configured from the chain configuration now in place, READY is
    emitted and nothing else changes. *)
Theorem init_outcomes base sub ext (autoConnect : bool) s :
  let s0 := final (BaseSolanaAdapter_init base s) in
  s0 = match chainConfig s with
       | Some _ => s
       | None => set_chainConfig (Some (defaultChainConfig base)) s
       end /\
  match checkInitializationRequirements base (status s) with
  | Some e =>
      init base sub ext autoConnect s
      = mkRun (inl e) s0 (visited (BaseSolanaAdapter_init base s))
  | None =>
      outcome (init base sub ext autoConnect s) = inr () /\
      is_Some (demonProvider (final (init base sub ext autoConnect s))) /\
      (status (final (init base sub ext autoConnect s)) = READY \/
       autoConnect = true /\
       status (final (init base sub ext autoConnect s)) = CONNECTED) /\
      (autoConnect = false ->
       final (init base sub ext autoConnect s)
       = push_event (EvREADY "DEMON")
           (set_status READY
              (set_demonProvider
                 (Some (new_DemonInjectedProvider (chainConfig s0))) s0)))
  end.
Proof.
  split; [apply BaseSolanaAdapter_init_final | apply init_plain_cases].
Qed.

(** X18: [init] with auto-connect, its check passed, ends in one of two
    ways.  If the connection check admits READY, the chain id of the
    adapter's configuration, or of the default one when it has none, is
    supported and the wallet comes up with a public key, the adapter is
    CONNECTED, still flagged as rehydrated, and the log has gained READY,
    CONNECTING and CONNECTED with [reconnected] true.  Otherwise the
    adapter is READY, no longer flagged, and the failure has been emitted
    twice with the same error: the log ends with the ERRORED event of
    [connect] followed by the event [init] emits under the name
    "ERRORED" written out. *)
Theorem init_auto_connect base sub ext s :
  checkInitializationRequirements base (status s) = None ->
  let s' := final (init base sub ext true s) in
  let admitted :=
    checkConnectionRequirements base READY = None /\
    supportedChain
      (Some (default (defaultChainConfig base) (chainConfig s))) /\
    comesUpWithKey ext = true in
  admitted /\
  status s' = CONNECTED /\
  rehydrated s' = true /\
  emitted s'
  = (emitted s ++ [EvREADY "DEMON"; EvCONNECTING "DEMON";
                   EvCONNECTED "DEMON" true])%list
  \/
  ~ admitted /\
  status s' = READY /\
  rehydrated s' = false /\
  exists pre e,
    emitted s' = (pre ++ [EvERRORED e; EvNamed "ERRORED" e])%list.
Proof.
  intros Hi s' admitted. subst s'.
  pose proof (init_auto_shape base sub ext s Hi) as H. cbv zeta in H.
  destruct (BaseSolanaAdapter_init_fields base s)
    as (_ & _ & _ & _ & _ & _ & Hem0 & Hcc0).
  cbv zeta in Hem0, Hcc0.
  revert H Hem0 Hcc0. generalize (final (BaseSolanaAdapter_init base s)).
  intros s0 H Hem0 Hcc0.
  match type of H with context [connect base sub ext ?s4] =>
    pose proof (connect_cases base sub ext s4) as Hc;
    pose proof (connect_ends base sub ext s4) as He;
    pose proof (connect_resolves_cases base sub ext s4) as Hr;
    destruct (connect base sub ext s4) as [[e|en] s1 seen]
  end; simpl in *; destruct H as [_ ->].
  - right. split.
    + intros Ha. destruct Hr as [_ Hr].
      destruct Hr as [? [=]].
      destruct Ha as (? & ? & ?). rewrite Hcc0. eauto.
    + destruct He as (Hst & Hrh & Hl). repeat split; try done.
      destruct (emitted s1) as [|ev evs] eqn:Hem using rev_ind;
        [discriminate Hl|].
      rewrite last_snoc in Hl. injection Hl as ->.
      exists evs, e. simpl. rewrite Hem.
      symmetry. apply (app_assoc _ [_] [_]).
  - left. destruct Hr as [Hr _].
    destruct Hr as (Hc1 & Hs1 & _ & Hk); [eauto|].
    destruct Hc as (Hst & _). destruct He as (Hem & Hrh & _).
    rewrite Hcc0 in Hs1.
    repeat split; try done.
    rewrite Hem. simpl. rewrite Hem0. by rewrite <- app_assoc.
Qed.

(** X19: after a [disconnect] with cleanup that went through, [connect]
    cannot resolve, whatever the wallet does; once [init] has run again
    (its check and the connection check permitting), a [connect] with a
    supported chain id and a wallet that comes up with a public key
    resolves. *)
Theorem cleanup_needs_init base sub ext s :
  disconnectSession base (status s) = None ->
  (forall (r : nat) (wal : DemonWalletAdapter),
     _wallet s = Some r -> heap s !! r = Some wal ->
     ext_disconnect wal = None) ->
  (forall st, super_disconnect base st = None) ->
  let s1 := final (disconnect base true s) in
  (exists e, outcome (connect base sub ext s1) = inl e) /\
  (checkInitializationRequirements base NOT_READY = None ->
   checkConnectionRequirements base READY = None ->
   supportedChain (chainConfig s) ->
   comesUpWithKey ext = true ->
   exists engine,
     outcome (connect base sub ext (final (init base sub ext false s1)))
     = inr engine).
Proof.
  intros Hd Hw Hsd s1. subst s1.
  pose proof (disconnect_clean_cases base true s Hd Hw Hsd) as H.
  destruct (disconnect base true s) as [o s1 seen]. simpl.
  destruct H as (_ & Hst & _ & Hp & Hcc & _).
  split.
  - pose proof (no_provider_cases base sub ext s1 Hp) as H.
    destruct (connect base sub ext s1) as [o' s' seen']. simpl.
    by destruct H as (He & _).
  - intros Hi Hc Hs Hk.
    rewrite <- Hst in Hi.
    rewrite (init_plain_run base sub ext s1 Hi). simpl.
    assert (E : final (BaseSolanaAdapter_init base s1) = s1).
    { rewrite BaseSolanaAdapter_init_final, Hcc.
      destruct (chainConfig s) as [c|]; [done|].
      unfold supportedChain in Hs. simpl in Hs.
      rewrite !elem_of_cons, elem_of_nil in Hs.
      by destruct Hs as [?|[?|[?|[]]]]. }
    rewrite E.
    match goal with |- context [connect base sub ext ?s3] =>
      pose proof (connect_resolves_cases base sub ext s3) as Hr;
      destruct (connect base sub ext s3) as [[e|en] s' seen']
    end; simpl in *; [|eauto].
    destruct Hr as [_ Hr]. destruct Hr as [? [=]].
    rewrite Hcc. eauto.
Qed.

End More.

End AdapterMore.

(** * The further properties at work *)

Module MoreWitnesses.
Import Router RouterFacts Adapter AdapterFacts RouterMore AdapterMore Scenario.

Ltac evaluated := vm_compute; reflexivity.

Ltac chain_supported :=
  unfold supportedChain; vm_compute; repeat constructor.

Lemma setupProvider_serves_witness :
  exists engine,
    provider (setupProvider proxySubclass
                (new_DemonInjectedProvider (Some mainnet)) 0) = Some engine /\
    handle engine (mkRequest "eth_sign" None) []
    = (Answered (mkResponse (Some (JString "eth_sign"))), ["proxy"]).
Proof.
  destruct (setupProvider_serves proxySubclass
              (new_DemonInjectedProvider (Some mainnet)) 0
              (mkRequest "eth_sign" None) [])
    as (engine & He & _ & Hu).
  exists engine. split; [exact He|].
  rewrite Hu; [reflexivity|].
  unfold boundMethods; simpl. intros Hin.
  repeat (apply elem_of_cons in Hin as [Hin | Hin]; [discriminate Hin|]).
  by apply elem_of_nil in Hin.
Defined.

Lemma connect_resolves_iff_witness :
  exists engine,
    outcome (connect specBase demonSubclass grants (initialised mainnet))
    = inr engine.
Proof.
  apply (proj2 (connect_resolves_iff
                  specBase demonSubclass grants (initialised mainnet))).
  split; [evaluated|]. split; [chain_supported|].
  split; [by eexists | reflexivity].
Defined.

Lemma connect_rejection_is_reported_witness :
  status (final (connect specBase demonSubclass refuses (initialised mainnet)))
  = READY.
Proof.
  exact (proj1 (connect_rejection_is_reported
                  specBase demonSubclass refuses (initialised mainnet) _
                  ltac:(evaluated))).
Defined.

Lemma connect_resolution_events_witness :
  emitted (final (connect specBase demonSubclass grants (initialised mainnet)))
  = (emitted (initialised mainnet)
     ++ [EvCONNECTING "DEMON";
         EvCONNECTED "DEMON" (rehydrated (initialised mainnet))])%list.
Proof.
  exact (proj1 (connect_resolution_events
                  specBase demonSubclass grants (initialised mainnet) _
                  ltac:(evaluated))).
Defined.

Lemma wallet_refusal_is_wrapped_witness :
  outcome (connect specBase demonSubclass refuses (initialised mainnet))
  = inl (if instanceof_Web3AuthError (Error "User rejected the request")
         then Error "User rejected the request"
         else WalletLoginError.connectionError
                (err_message (Error "User rejected the request"))).
Proof.
  exact (proj1 (wallet_refusal_is_wrapped
                  specBase demonSubclass refuses (initialised mainnet)
                  (Error "User rejected the request")
                  ltac:(evaluated) ltac:(chain_supported)
                  eq_refl eq_refl)).
Defined.

Lemma missing_publicKey_is_detected_late_witness :
  outcome (connect specBase demonSubclass keyless (initialised mainnet))
  = inl (WalletLoginError.connectionError "").
Proof.
  exact (proj1 (missing_publicKey_is_detected_late
                  specBase demonSubclass keyless (initialised mainnet)
                  (new_DemonInjectedProvider (Some mainnet))
                  ltac:(evaluated) ltac:(chain_supported) ltac:(evaluated)
                  (or_intror (ex_intro _ None eq_refl)) eq_refl)).
Defined.

Lemma connect_needs_a_provider_witness :
  outcome (connect lenientBase demonSubclass grants (constructed mainnet))
  = inl (WalletLoginError.connectionError "No demon provider").
Proof.
  destruct (connect_needs_a_provider
              lenientBase demonSubclass grants (constructed mainnet) eq_refl)
    as (_ & _ & _ & _ & H).
  refine (proj1 (H eq_refl _ (or_intror (ex_intro _ _ eq_refl)))).
  chain_supported.
Defined.

Lemma disconnect_by_cleanup_witness :
  status (final (disconnect specBase true (connectedOnce mainnet)))
  = NOT_READY.
Proof.
  refine (proj1 (proj2 (disconnect_by_cleanup
                          specBase true (connectedOnce mainnet)
                          eq_refl _ (fun _ => eq_refl)))).
  intros r wal Hr Hw.
  vm_compute in Hr. injection Hr as <-.
  vm_compute in Hw. injection Hw as <-. reflexivity.
Defined.

Lemma failed_teardown_keeps_state_witness :
  let s := final (connect specBase demonSubclass clings (initialised mainnet)) in
  disconnect specBase true s
  = mkRun (inr ())
      (push_event
         (EvERRORED (WalletLoginError.disconnectionError
                       (err_message (Error "Extension is busy")))) s)
      [push_event
         (EvERRORED (WalletLoginError.disconnectionError
                       (err_message (Error "Extension is busy")))) s].
Proof.
  intros s.
  exact (failed_teardown_keeps_state
           specBase true s 0
           (wallet_on (wallet_connected (Some "PublicKey")
                         (new_DemonWalletAdapter clings mainnet_beta)))
           (Error "Extension is busy")
           eq_refl ltac:(evaluated) ltac:(evaluated) eq_refl).
Defined.

Lemma reconnect_after_disconnect_witness :
  exists engine',
    outcome
      (connect specBase demonSubclass grants
         (final (disconnect specBase false
                   (final (connect specBase demonSubclass grants
                             (initialised mainnet))))))
    = inr engine'.
Proof.
  exact (proj1 (proj2 (reconnect_after_disconnect
                         specBase demonSubclass grants grants
                         (initialised mainnet) _
                         ltac:(evaluated) eq_refl eq_refl
                         (fun _ => eq_refl) eq_refl eq_refl))).
Defined.

Lemma notification_without_wallet_witness :
  fire_disconnect 0 (initialised mainnet)
  = mkRun (inr ()) (initialised mainnet) [].
Proof.
  exact (notification_without_wallet 0 (initialised mainnet)
           ltac:(evaluated)).
Defined.

(** A second connection is up when the wallet of the first one fires: the
    handler is taken off the second wallet. *)
Lemma notification_unregisters_held_wallet_witness :
  let s := after_calls specBase demonSubclass
             [CallInit grants false; CallConnect grants;
              CallDisconnect false; CallConnect grants]
             (constructed mainnet) in
  status (final (fire_disconnect 0 s))
  = (if decide (status s = CONNECTED) then READY else NOT_READY) /\
  _wallet (final (fire_disconnect 0 s)) = Some 1.
Proof.
  intros s.
  destruct (notification_unregisters_held_wallet 0 1
              (wallet_disconnected
                 (wallet_on (wallet_connected (Some "PublicKey")
                               (new_DemonWalletAdapter grants mainnet_beta))))
              s ltac:(evaluated) eq_refl ltac:(evaluated))
    as (H1 & _ & _ & H2 & _).
  exact (conj H1 H2).
Defined.

Lemma switchChain_rejection_keeps_config_witness :
  switchChain specBase demonSubclass "0x2" false (connectedOnce mainnet)
  = mkRun (inl (WalletLoginError.unsupportedOperation
                  "Chain switching is not supported by this adapter"))
          (connectedOnce mainnet) [].
Proof.
  destruct (switchChain_rejection_keeps_config
              specBase demonSubclass "0x2" false (connectedOnce mainnet))
    as (_ & H & _).
  eapply (H eq_refl); [evaluated | reflexivity].
Defined.

Lemma getUserInfo_requires_connection_witness :
  outcome (getUserInfo (initialised mainnet))
  = inl (WalletLoginError.notConnectedError notConnectedMessage).
Proof.
  destruct (getUserInfo_requires_connection (initialised mainnet))
    as (_ & _ & H & _).
  apply H. left. vm_compute. discriminate.
Defined.

Lemma init_outcomes_witness :
  outcome (init specBase demonSubclass grants true (constructed mainnet))
  = inr ().
Proof.
  exact (proj1 (proj2 (init_outcomes specBase demonSubclass grants true
                         (constructed mainnet)))).
Defined.

Lemma init_auto_connect_witness :
  status (final (init specBase demonSubclass refuses true (constructed mainnet)))
  = READY.
Proof.
  destruct (init_auto_connect specBase demonSubclass refuses
              (constructed mainnet) eq_refl)
    as [((_ & _ & Hk) & _)|(_ & Hst & _)].
  - discriminate Hk.
  - exact Hst.
Defined.

Lemma cleanup_needs_init_witness :
  exists e,
    outcome (connect lenientBase demonSubclass grants
               (final (disconnect lenientBase true (connectedOnce mainnet))))
    = inl e.
Proof.
  refine (proj1 (cleanup_needs_init
                   lenientBase demonSubclass grants (connectedOnce mainnet)
                   eq_refl _ (fun _ => eq_refl))).
  intros r wal Hr Hw.
  vm_compute in Hr. injection Hr as <-.
  vm_compute in Hw. injection Hw as <-. reflexivity.
Defined.

End MoreWitnesses.
